(** * The JSON status exporter of buildbot (status_json.py)

    A shallow embedding of [master/buildbot/status/web/status_json.py]:
    the values the exporter produces, the empty-value filter, the
    resource tree below a builder's [builds] node with its path
    resolution, the renderers of that subtree, the [select]
    composer of [JsonResource.content], and the two pending-build
    listings.  The definitions come first; the properties follow. *)

From Stdlib Require Import ZArith Ascii String List Sorted Permutation Lia.
From stdpp Require Import gmap strings list fin_maps pretty.

Set Warnings "-register-all".
Set Default Proof Using "Type".

(** ** Python built-ins used by the module *)

Module Py.

(** [s.lstrip(c)], [s.rstrip(c)] and [s.strip(c)] for a single
    character [c]. *)
Fixpoint lstrip (c : ascii) (s : string) : string :=
  match s with
  | String a s' => if Ascii.eqb a c then lstrip c s' else s
  | EmptyString => EmptyString
  end.

Fixpoint rstrip (c : ascii) (s : string) : string :=
  match s with
  | EmptyString => EmptyString
  | String a s' =>
      match rstrip c s' with
      | EmptyString => if Ascii.eqb a c then EmptyString else String a EmptyString
      | r => String a r
      end
  end.

Definition strip (c : ascii) (s : string) : string := rstrip c (lstrip c s).

(** [s.count(c)] *)
Fixpoint count (c : ascii) (s : string) : nat :=
  match s with
  | EmptyString => 0
  | String a s' => (if Ascii.eqb a c then 1 else 0) + count c s'
  end.

(** [s.split(c)]: never empty, [''.split('/') == ['']]. *)
Fixpoint split (c : ascii) (s : string) : list string :=
  match s with
  | EmptyString => [EmptyString]
  | String a s' =>
      if Ascii.eqb a c then EmptyString :: split c s'
      else match split c s' with
           | w :: ws => String a w :: ws
           | [] => [String a EmptyString]
           end
  end.

(** [c in s] and [s.replace(c, '')] for a single character. *)
Fixpoint contains (c : ascii) (s : string) : bool :=
  match s with
  | EmptyString => false
  | String a s' => Ascii.eqb a c || contains c s'
  end.

Fixpoint remove (c : ascii) (s : string) : string :=
  match s with
  | EmptyString => EmptyString
  | String a s' => if Ascii.eqb a c then remove c s' else String a (remove c s')
  end.

(** [s.lower()] on ASCII letters. *)
Definition lower_char (a : ascii) : ascii :=
  let n := nat_of_ascii a in
  if (65 <=? n)%nat && (n <=? 90)%nat then ascii_of_nat (n + 32) else a.

Fixpoint lower (s : string) : string :=
  match s with
  | EmptyString => EmptyString
  | String a s' => String (lower_char a) (lower s')
  end.

Definition is_digit (a : ascii) : bool :=
  let n := nat_of_ascii a in (48 <=? n)%nat && (n <=? 57)%nat.

Definition digit_value (a : ascii) : Z := Z.of_nat (nat_of_ascii a) - 48.

(** The characters [int()] and [str.strip()] treat as white space. *)
Definition is_space (a : ascii) : bool :=
  let n := nat_of_ascii a in ((9 <=? n)%nat && (n <=? 13)%nat) || (n =? 32)%nat.

Fixpoint lstrip_space (s : string) : string :=
  match s with
  | String a s' => if is_space a then lstrip_space s' else s
  | EmptyString => EmptyString
  end.

Fixpoint rstrip_space (s : string) : string :=
  match s with
  | EmptyString => EmptyString
  | String a s' =>
      match rstrip_space s' with
      | EmptyString => if is_space a then EmptyString else String a EmptyString
      | r => String a r
      end
  end.

Fixpoint digits (acc : Z) (s : string) : option Z :=
  match s with
  | EmptyString => Some acc
  | String a s' => if is_digit a then digits (10 * acc + digit_value a) s' else None
  end.

Definition unsigned (s : string) : option Z :=
  match s with
  | EmptyString => None
  | _ => digits 0 s
  end.

(** [int(s)] in base ten: surrounding white space, an optional sign,
    at least one digit; [None] stands for [ValueError]. *)
Definition int (s : string) : option Z :=
  match rstrip_space (lstrip_space s) with
  | String "-" s' => Z.opp <$> unsigned s'
  | String "+" s' => unsigned s'
  | s' => unsigned s'
  end.

(** [str(n)] *)
Definition str (n : Z) : string := pretty n.

(** [sorted(l, cmp=...)] and [l.sort(cmp=...)] are stable; [le x y]
    says that [cmp(x, y) <= 0].  Every stable sort returns the same
    list, so insertion from the right stands for Python's merge
    sort. *)
Fixpoint insert_sorted {A} (le : A → A → bool) (x : A) (l : list A) : list A :=
  match l with
  | [] => [x]
  | y :: l' => if le x y then x :: l else y :: insert_sorted le x l'
  end.

Definition sorted {A} (le : A → A → bool) (l : list A) : list A :=
  foldr (insert_sorted le) [] l.

End Py.

(** The module-level pattern [_IS_INT = re.compile(r'^[-+]?\d+$')],
    used through [_IS_INT.match(path)]: an optional sign, one or more
    digits, and then the end of the string, which [$] also finds just
    before a final line feed. *)
Fixpoint digits_then_end (s : string) : bool :=
  match s with
  | EmptyString => true
  | String a s' =>
      if Py.is_digit a then digits_then_end s'
      else Ascii.eqb a "010"%char && bool_decide (s' = EmptyString)
  end.

Definition _IS_INT (path : string) : bool :=
  let body := match path with
              | String "-" s' => s'
              | String "+" s' => s'
              | _ => path
              end in
  match body with
  | String a rest => Py.is_digit a && digits_then_end rest
  | EmptyString => false
  end.

(** ** Values *)

(** Keys of a Python [dict] as the module builds them: [None], integers
    (build numbers, step indices; [True] and [False] hash and compare as
    [1] and [0]) and strings. *)
Inductive key :=
| KNone
| KInt (n : Z)
| KStr (s : string).

Global Instance key_eq_dec : EqDecision key.
Proof. solve_decision. Defined.

Global Instance key_countable : Countable key.
Proof.
  refine (inj_countable'
    (λ k, match k with KNone => inl () | KInt n => inr (inl n) | KStr s => inr (inr s) end)
    (λ x, match x with inl _ => KNone | inr (inl n) => KInt n | inr (inr s) => KStr s end) _).
  by intros [].
Defined.

(** What [asDict] returns and [json.dumps] accepts: [None], booleans,
    integers, strings, lists and dicts.  Floats are left out, and a
    tuple is represented by the list of its items ([FilterOut] treats
    both alike and returns a list). *)
Inductive value :=
| VNone
| VBool (b : bool)
| VInt (n : Z)
| VStr (s : string)
| VList (l : list value)
| VDict (d : gmap key value).

Abbreviation document := (gmap key value).

(** Exceptions that the modelled code can raise. *)
Inductive exn :=
| IndexError
| KeyError
| ValueError
| TypeError
| AttributeError
| NotImplementedError
| RuntimeError.

Inductive result (A : Type) :=
| Ok (a : A)
| Raise (e : exn).
Global Arguments Ok {A} a.
Global Arguments Raise {A} e.

Global Instance result_ret : MRet result := λ A a, Ok a.
Global Instance result_bind : MBind result :=
  λ A B f m, match m with Ok a => f a | Raise e => Raise e end.
Global Instance result_fmap : FMap result :=
  λ A B f m, match m with Ok a => Ok (f a) | Raise e => Raise e end.

Global Instance exn_eq_dec : EqDecision exn.
Proof. solve_decision. Defined.

(** ** FilterOut *)

(** [x in ('', False, None, [], {}, ())].  Membership in a tuple
    compares with [==], and in Python [0 == False]. *)
Definition in_empties (x : value) : bool :=
  match x with
  | VStr s => bool_decide (s = EmptyString)
  | VBool b => negb b
  | VInt n => (n =? 0)%Z
  | VNone => true
  | VList l => match l with [] => true | _ :: _ => false end
  | VDict d => bool_decide (d = ∅)
  end.

Fixpoint FilterOut (data : value) : value :=
  match data with
  | VList l =>
      let items := map FilterOut l in
      match filter (λ x, negb (in_empties x) = true) items with
      | [] => VNone
      | _ :: _ => VList items
      end
  | VDict d =>
      VDict (omap (λ v, let v' := FilterOut v in
                        if negb (in_empties v') then Some v' else None) d)
  | _ => data
  end.

(** ** Requests *)

(** A [twisted.web] request as far as the module reads it: the query
    arguments, and the two path lists that resolution moves segments
    between.  [getCodebasesArg] and [getResultsArg] are functions of
    [buildbot.status.web.base], which is not part of the sources at
    hand; the request carries what they extract from it (the
    codebase constraints, and the result codes or [None]). *)
Record request := Request {
  args : gmap string (list string);
  prepath : list string;
  postpath : list string;
  getCodebasesArg : gmap string string;
  getResultsArg : option (list Z);
}.

Definition set_args (req : request) (a : gmap string (list string)) : request :=
  {| args := a; prepath := prepath req; postpath := postpath req;
     getCodebasesArg := getCodebasesArg req; getResultsArg := getResultsArg req |}.

Definition set_paths (req : request) (pre post : list string) : request :=
  {| args := args req; prepath := pre; postpath := post;
     getCodebasesArg := getCodebasesArg req; getResultsArg := getResultsArg req |}.

(** [request.args.get(arg, [default])[0]]; [None] stands for the
    default, whose type varies with the caller. *)
Definition RequestArg (req : request) (arg : string) : result (option string) :=
  match args req !! arg with
  | None => Ok None
  | Some [] => Raise IndexError
  | Some (v :: _) => Ok (Some v)
  end.

Definition RequestArgToBool (req : request) (arg : string) (default : bool) : result bool :=
  value ← RequestArg req arg;
  match value with
  | None => Ok default
  | Some value =>
      let value := Py.lower value in
      if bool_decide (value = "1") || bool_decide (value = "true") then Ok true
      else if bool_decide (value = "0") || bool_decide (value = "false") then Ok false
      else Ok default
  end.

(** ** The status objects behind the resources

    The classes of [buildbot.status] are not part of the sources at
    hand.  Each record lists what the exporter reads from such an
    object; a method the exporter only forwards to is a field. *)

Record change := mkChange {
  c_number : option Z;                 (* c.number *)
  c_id : Z;                            (* id(c) *)
  c_asDict : value;                    (* c.asDict() *)
}.

Record sourcestamp := mkSourceStamp {
  ss_changes : list change;            (* source_stamp.changes *)
  ss_asDict : value;                   (* source_stamp.asDict() *)
}.

Record step_status := mkStep {
  getName : string;
  step_asDict : option request → value; (* step.asDict() and step.asDict(request) *)
}.

Record build_status := mkBuild {
  getNumber : Z;
  results : option Z;                  (* None while the build runs *)
  branch : string;
  getSourceStamps_0 : sourcestamp;     (* build_status.getSourceStamps()[0] *)
  getSteps : list step_status;
  build_asDict : option request → value;
  (* build_status.builder.foundCodebasesInBuild(build_status, codebases) *)
  foundCodebasesInBuild : gmap string string → bool;
}.

Record build_request_status := mkBuildRequest {
  brid : Z;
  buildername : string;
  getSubmitTime : Z;
  (* buildbot.status.web.builder.foundCodebasesInPendingBuild(br, codebases) *)
  foundCodebasesInPendingBuild : gmap string string → bool;
  br_asDict_async : option request → value;
}.

Record builder_status := mkBuilder {
  (* every build of the builder, the most recent first *)
  history : list build_status;
  (* the numbers of the builds held in the in-memory cache *)
  cache : list Z;
  (* master.config.caches['Builds'] *)
  caches_Builds : Z;
  getCachedBuilds : gmap string string → list build_status;
  getPendingBuildRequestStatuses : list build_request_status;
}.

(** [status.master.db.buildrequests.getUnclaimedBuildRequest(sorted=...)]
    returns dicts with a builder name and a request id, from which the
    exporter builds a [BuildRequestStatus] each; the field gives those
    request statuses in the order of the dicts. *)
Record status := mkStatus {
  getUnclaimedBuildRequest : bool → list build_request_status;
}.

(** Modelled from the spec: [BuilderStatus.getBuild] is not part of the
    sources at hand.  A number [n >= 0] names the build literally
    numbered [n]; [n < 0] names the [|n|]-th most recent build ([-1] is
    the latest).  Both draw from the in-memory cache only: a build that
    is not held there is not returned. *)
Definition getBuild (b : builder_status) (n : Z) : option build_status :=
  build ← (if (0 <=? n)%Z
           then List.find (λ bs, (getNumber bs =? n)%Z) (history b)
           else history b !! Z.to_nat (- n - 1));
  if bool_decide (getNumber build ∈ cache b) then Some build else None.

(** Modelled from the spec: the filters of
    [BuilderStatus.generateFinishedBuilds], which is not part of the
    sources at hand.  A build satisfies them when it is on one of the
    branches (when any is given), meets the codebase constraints (when
    any is given) and has one of the result codes (when given). *)
Definition satisfies (branches : list string) (codebases : gmap string string)
    (results_filter : option (list Z)) (bs : build_status) : bool :=
  (bool_decide (branches = []) || bool_decide (branch bs ∈ branches))
  && (bool_decide (codebases = ∅) || foundCodebasesInBuild bs codebases)
  && match results_filter with
     | None => true
     | Some rs => match results bs with
                  | Some r => bool_decide (r ∈ rs)
                  | None => false
                  end
     end.

(** Modelled from the spec: [BuilderStatus.generateFinishedBuilds] is
    not part of the sources at hand.  It scans the full history, the
    most recent build first, past the in-memory cache, and yields the
    first [num_builds] builds that satisfy every supplied filter. *)
Definition generateFinishedBuilds (b : builder_status) (branches : list string)
    (codebases : gmap string string) (results_filter : option (list Z))
    (num_builds : Z) : list build_status :=
  take (Z.to_nat num_builds)
       (List.filter (satisfies branches codebases results_filter) (history b)).

(** ** The resource tree below a builder's [builds] node *)

(** A path segment: a string from the URL or from a [select] entry,
    or the integer that [AllBuildsJsonResource.asDict] passes. *)
Inductive patharg :=
| PStr (s : string)
| PInt (n : Z).

Global Instance patharg_eq_dec : EqDecision patharg.
Proof. solve_decision. Defined.

(** One constructor per class, holding the instance's fields.  The
    child mapping [self.children] of an instance is filled by its
    [__init__] and is a function of those fields ([children] below),
    with one exception: [BuildStepsJsonResource.getChild] adds children
    while it resolves.  That mapping is the second field of
    [BuildStepsJsonResource]; a build holds its [steps] child, so the
    same mapping is the second field of [BuildJsonResource].  Python's
    [BuildJsonResource(status, build_status)] is
    [BuildJsonResource build_status ∅].

    [HelpResource] is an [HtmlResource] and [NoResource] is what
    twisted's [Resource.getChild] returns; neither is a
    [JsonResource]. *)
Inductive resource :=
| BuildsJsonResource (builder_status : builder_status)
| AllBuildsJsonResource (builder_status : builder_status)
| PastBuildsJsonResource (number : Z) (builder_status : builder_status)
| BuildJsonResource (build_status : build_status) (steps : gmap string step_status)
| BuildStepsJsonResource (build_status : build_status) (steps : gmap string step_status)
| BuildStepJsonResource (build_step_status : step_status)
| SourceStampJsonResource (source_stamp : sourcestamp)
| ChangesJsonResource (changes : list change)
| ChangeJsonResource (change : change)
| HelpResource (text pageTitle : string) (parent_children : gset string)
| NoResource.

Definition isinstance_JsonResource (r : resource) : bool :=
  match r with
  | HelpResource _ _ _ | NoResource => false
  | _ => true
  end.

(** [hasattr(child, 'asDict')]: [JsonResource] defines it. *)
Definition hasattr_asDict (r : resource) : bool := isinstance_JsonResource r.

(** No class of the module overrides twisted's [Resource.isLeaf = 0]. *)
Definition isLeaf (r : resource) : bool := false.

(** The class attribute [help]; empty where the class has none. *)
Definition help (r : resource) : string :=
  match r with
  | BuildsJsonResource _ => "Builds that were run on a builder.
"
  | AllBuildsJsonResource _ => "All the builds that were run on a builder.
"
  | PastBuildsJsonResource _ _ => "Previous x number of builds that were run on a builder."
  | BuildJsonResource _ _ => "Describe a single build.
"
  | BuildStepsJsonResource _ _ => "A list of build steps that occurred during a build.
"
  | BuildStepJsonResource _ => "A single build step.
"
  | SourceStampJsonResource _ => "Describe the sources for a SourceStamp.
"
  | ChangesJsonResource _ => "List of changes.
"
  | ChangeJsonResource _ => "Describe a single change that originates from a change source.
"
  | HelpResource _ _ _ | NoResource => ""
  end.

Definition pageTitle (r : resource) : string :=
  match r with
  | BuildsJsonResource _ => "Builds"
  | AllBuildsJsonResource _ => "AllBuilds"
  | PastBuildsJsonResource _ _ => "Builds"
  | BuildJsonResource _ _ => "Build"
  | BuildStepsJsonResource _ _ => "BuildSteps"
  | BuildStepJsonResource _ => "BuildStep"
  | SourceStampJsonResource _ => "SourceStamp"
  | ChangesJsonResource _ => "Changes"
  | ChangeJsonResource _ => "Change"
  | HelpResource _ _ _ | NoResource => ""
  end.

(** [ChangesJsonResource.__init__]: a change goes under its number,
    or under [id(c)] when it has none or the number is taken. *)
Definition ChangesJsonResource_init (changes : list change) : gmap string change :=
  foldl (λ (children : gmap string change) c,
           match c_number c with
           | Some n =>
               if bool_decide (is_Some (children !! Py.str n))
               then <[Py.str (c_id c) := c]> children
               else <[Py.str n := c]> children
           | None => <[Py.str (c_id c) := c]> children
           end) ∅ changes.

(** [self.children] *)
Definition children (self : resource) : gmap string resource :=
  match self with
  | BuildsJsonResource b => {[ "_all" := AllBuildsJsonResource b ]}
  | BuildJsonResource bs steps =>
      <[ "source_stamp" := SourceStampJsonResource (getSourceStamps_0 bs) ]>
        {[ "steps" := BuildStepsJsonResource bs steps ]}
  | BuildStepsJsonResource _ steps => BuildStepJsonResource <$> steps
  | SourceStampJsonResource ss => {[ "changes" := ChangesJsonResource (ss_changes ss) ]}
  | ChangesJsonResource changes => ChangeJsonResource <$> ChangesJsonResource_init changes
  | _ => ∅
  end.

(** [isinstance(path, int) or _IS_INT.match(path)], and [int(path)]. *)
Definition is_int (path : patharg) : bool :=
  match path with
  | PInt _ => true
  | PStr s => _IS_INT s
  end.

Definition int (path : patharg) : result Z :=
  match path with
  | PInt n => Ok n
  | PStr s => match Py.int s with Some n => Ok n | None => Raise ValueError end
  end.

(** [l[i]] with its position: a negative [i] counts from the end. *)
Definition getitem {A} (l : list A) (i : Z) : result (nat * A) :=
  let n := Z.of_nat (length l) in
  let pos := Z.to_nat (if (i <? 0)%Z then n + i else i) in
  if ((- n <=? i) && (i <? n))%Z
  then match l !! pos with
       | Some x => Ok (pos, x)
       | None => Raise IndexError
       end
  else Raise IndexError.

(** [dict([(step.getName(), step) for step in steps]).get(path)] with
    the position of the step found; of two steps with one name the
    later one stays in the dict. *)
Fixpoint steps_dict_get (path : string) (steps : list step_status) (i : nat)
  : option (nat * step_status) :=
  match steps with
  | [] => None
  | step :: rest =>
      match steps_dict_get path rest (S i) with
      | Some found => Some found
      | None => if bool_decide (getName step = path) then Some (i, step) else None
      end
  end.

(** [JsonResource.getChild] is [resource.Resource.getChild], which
    returns a new [NoResource]. *)
Definition JsonResource_getChild (self : resource) : result (resource * resource) :=
  Ok (self, NoResource).

(** [AllBuildsJsonResource.getChild].  Each resolution that succeeds
    constructs a new resource and stores nothing in [self]. *)
Definition AllBuildsJsonResource_getChild (self : resource) (b : builder_status)
    (path : patharg) : result (resource * resource) :=
  if is_int path then
    n ← int path;
    match getBuild b n with
    | Some build_status => Ok (self, BuildJsonResource build_status ∅)
    | None => JsonResource_getChild self
    end
  else
    match path with
    | PStr s =>
        if Py.contains "<" s then
          let num := match Py.int (Py.remove "<" s) with
                     | Some num => num
                     | None => 15%Z
                     end in
          Ok (self, PastBuildsJsonResource num b)
        else JsonResource_getChild self
    | PInt _ => JsonResource_getChild self
    end.

(** [BuildStepsJsonResource.getChild].  [getSteps().index(...)] finds the
    step object among the steps, that is the position it was taken
    from.  The two [putChild] calls store the child under the decimal
    index and under the step's name. *)
Definition BuildStepsJsonResource_getChild (self : resource) (bs : build_status)
    (steps : gmap string step_status) (path : patharg) : result (resource * resource) :=
  build_step_status ←
    (if is_int path then
       n ← int path; Some <$> getitem (getSteps bs) n
     else
       Ok (match path with
           | PStr s => steps_dict_get s (getSteps bs) 0
           | PInt _ => None
           end));
  match build_step_status with
  | Some (index, build_step_status) =>
      let child := BuildStepJsonResource build_step_status in
      Ok (BuildStepsJsonResource bs
            (<[getName build_step_status := build_step_status]>
               (<[Py.str (Z.of_nat index) := build_step_status]> steps)),
          child)
  | None => JsonResource_getChild self
  end.

(** [JsonResource.getChildWithDefault], with the class's [getChild] at
    the end.  The result is [self] after the call and the child.
    [BuildsJsonResource.getChild] hands over to
    [self.children['_all'].getChildWithDefault]; that child never
    changes, so [self] is returned as it is. *)
Definition getChildWithDefault_base (self : resource) (path : patharg) (req : request)
    (getChild : result (resource * resource)) : result (resource * resource) :=
  if bool_decide (path = PStr "") && bool_decide (postpath req = []) then Ok (self, self)
  else if bool_decide (path = PStr "help") && negb (bool_decide (help self = "")) then
    Ok (self, HelpResource (help self)
                (if bool_decide (pageTitle self = "") then "" else pageTitle self +:+ " help")
                (dom (children self)))
  else
    match path with
    | PStr s => match children self !! s with
                | Some child => Ok (self, child)
                | None => getChild
                end
    | PInt _ => getChild
    end.

Definition getChildWithDefault (self : resource) (path : patharg) (req : request)
  : result (resource * resource) :=
  match self with
  | NoResource => Ok (self, self)
  | HelpResource _ _ _ => JsonResource_getChild self
  | _ =>
      getChildWithDefault_base self path req
        match self with
        | BuildsJsonResource b =>
            let _all := AllBuildsJsonResource b in
            '(_, child) ← getChildWithDefault_base _all path req
                            (AllBuildsJsonResource_getChild _all b path);
            Ok (self, child)
        | AllBuildsJsonResource b => AllBuildsJsonResource_getChild self b path
        | BuildStepsJsonResource bs steps => BuildStepsJsonResource_getChild self bs steps path
        | _ => JsonResource_getChild self
        end
  end.

(** ** Rendering *)

(** A [for] loop whose body may raise. *)
Fixpoint for_each {A S} (body : S → A → result S) (s : S) (l : list A) : result S :=
  match l with
  | [] => Ok s
  | x :: l' => s' ← body s x; for_each body s' l'
  end.

Definition BuildsJsonResource_asDict (b : builder_status) (req : request) : result value :=
  let codebases := getCodebasesArg req in
  let builds := getCachedBuilds b codebases in
  Ok (VList (map (λ b, build_asDict b None) builds)).

(** The body of the loop of [AllBuildsJsonResource.asDict]; the state
    is [self] and [results]. *)
Definition AllBuildsJsonResource_asDict_body (req : request)
    (codebases : gmap string string) (results_filter : option (list Z))
    (st : resource * document) (i : Z) : result (resource * document) :=
  let '(self, results_) := st in
  '(self, child) ← getChildWithDefault self (PInt (- i)) req;
  match child with
  | BuildJsonResource build_status _ =>
      if negb (bool_decide (size codebases = 0%nat))
         && negb (foundCodebasesInBuild build_status codebases)
      then Ok (self, results_)
      else if match results_filter with
              | Some rs => negb (match results build_status with
                                 | Some r => bool_decide (r ∈ rs)
                                 | None => false
                                 end)
              | None => false
              end
      then Ok (self, results_)
      else Ok (self, <[KInt (getNumber build_status) :=
                         build_asDict build_status (Some req)]> results_)
  | _ => Ok (self, results_)
  end.

(** [int(RequestArg(request, 'max', cache_size))] *)
Definition max_arg (req : request) (cache_size : Z) : result Z :=
  v ← RequestArg req "max";
  match v with
  | None => Ok cache_size
  | Some s => match Py.int s with Some n => Ok n | None => Raise ValueError end
  end.

Definition AllBuildsJsonResource_asDict (self : resource) (b : builder_status)
    (req : request) : result value :=
  let codebases := getCodebasesArg req in
  let results_filter := getResultsArg req in
  let cache_size := caches_Builds b in
  max ← max_arg req cache_size;
  '(_, results_) ← for_each (AllBuildsJsonResource_asDict_body req codebases results_filter)
                     (self, ∅) (seqZ 0 max);
  Ok (VDict results_).

(** Modelled from the spec: [map_branches] of
    [buildbot.status.web.base] is not part of the sources at hand; the
    branch filter is a set of branch names, taken as given. *)
Definition map_branches (branches : list string) : list string := branches.

(** [PastBuildsJsonResource.asDict] for a node made with a
    [builder_status], as [AllBuildsJsonResource.getChild] makes it. *)
Definition PastBuildsJsonResource_asDict (number : Z) (b : builder_status)
    (req : request) : result value :=
  let codebases := getCodebasesArg req in
  let branches := List.filter (λ b, negb (String.eqb b ""))
                    (default [] (args req !! "branch")) in
  let results_ := getResultsArg req in
  let builds := generateFinishedBuilds b (map_branches branches) codebases results_ number in
  Ok (VList (map (λ b, build_asDict b (Some req)) builds)).

Definition BuildStepsJsonResource_asDict (bs : build_status) (req : request) : result value :=
  Ok (VDict (list_to_map
               (imap (λ index step, (KInt (Z.of_nat index), step_asDict step (Some req)))
                     (getSteps bs)))).

(** [asDict] of the classes that define it without calling the
    inherited one. *)
Definition asDict_own (self : resource) (req : request) : option (result value) :=
  match self with
  | BuildsJsonResource b => Some (BuildsJsonResource_asDict b req)
  | AllBuildsJsonResource b => Some (AllBuildsJsonResource_asDict self b req)
  | PastBuildsJsonResource number b => Some (PastBuildsJsonResource_asDict number b req)
  | BuildJsonResource bs _ => Some (Ok (build_asDict bs (Some req)))
  | BuildStepsJsonResource bs _ => Some (BuildStepsJsonResource_asDict bs req)
  | BuildStepJsonResource st => Some (Ok (step_asDict st None))
  | SourceStampJsonResource ss => Some (Ok (ss_asDict ss))
  | ChangeJsonResource c => Some (Ok (c_asDict c))
  | ChangesJsonResource _ | HelpResource _ _ _ | NoResource => None
  end.

(** [JsonResource.asDict]: every child that is a [JsonResource], under
    its name.  In this subtree only [ChangesJsonResource] inherits it,
    so a child without an [asDict] of its own can only be [self],
    returned for the name [''], and rendering it again recurses until
    Python gives up. *)
Definition JsonResource_asDict (self : resource) (req : request) : result value :=
  if bool_decide (children self = ∅) then Raise NotImplementedError
  else
    VDict <$>
      map_fold (λ name (_ : resource) (acc : result document),
                  data ← acc;
                  '(_, child) ← getChildWithDefault self (PStr name) req;
                  if isinstance_JsonResource child then
                    v ← default (Raise RuntimeError) (asDict_own child req);
                    Ok (<[KStr name := v]> data)
                  else Ok data)
               (Ok ∅) (children self).

Definition ChangesJsonResource_asDict (self : resource) (req : request) : result value :=
  if bool_decide (children self = ∅) then Ok (VDict ∅)
  else JsonResource_asDict self req.

Definition asDict (self : resource) (req : request) : result value :=
  match self with
  | ChangesJsonResource _ => ChangesJsonResource_asDict self req
  | _ => default (Raise AttributeError) (asDict_own self req)
  end.

(** ** The select composer of [JsonResource.content] *)

(** [dict.update(other)].  A mapping is merged in.  Anything else is
    iterated as a sequence of pairs: each element must itself be a
    sequence of two items, the first one hashable.  (For an element
    that is a mapping with two keys Python takes the keys in the
    mapping's own order, which the language leaves open; here it is the
    order of [map_to_list].) *)
Definition key_of (v : value) : result key :=
  match v with
  | VNone => Ok KNone
  | VBool b => Ok (KInt (if b then 1 else 0))
  | VInt n => Ok (KInt n)
  | VStr s => Ok (KStr s)
  | VList _ | VDict _ => Raise TypeError
  end.

Definition value_of_key (k : key) : value :=
  match k with
  | KNone => VNone
  | KInt n => VInt n
  | KStr s => VStr s
  end.

Definition pair_of (element : value) : result (key * value) :=
  match element with
  | VList [k; v] => k ← key_of k; Ok (k, v)
  | VList _ => Raise ValueError
  | VStr (String a (String b EmptyString)) =>
      Ok (KStr (String a EmptyString), VStr (String b EmptyString))
  | VStr _ => Raise ValueError
  | VDict d =>
      match map_to_list d with
      | [(k1, _); (k2, _)] => Ok (k1, value_of_key k2)
      | _ => Raise ValueError
      end
  | VNone | VBool _ | VInt _ => Raise TypeError
  end.

Definition dict_update (node : document) (other : value) : result document :=
  match other with
  | VDict d => Ok (d ∪ node)
  | VList l => for_each (λ node element, '(k, v) ← pair_of element; Ok (<[k := v]> node)) node l
  | VStr s => if bool_decide (s = "") then Ok node else Raise ValueError
  | VNone | VBool _ | VInt _ => Raise TypeError
  end.

(** The pointer [node] into [data]: the mapping it designates, and the
    way back up, that is each enclosing mapping with the key under
    which the one below it sits.  [node[pathElement] = {}; node =
    node[pathElement]] pushes the current mapping and goes on with an
    empty one; [rebuild] reads [data] back. *)
Definition rebuild (node : document) (ctx : list (string * document)) : document :=
  foldl (λ node '(pathElement, parent), <[KStr pathElement := VDict node]> parent) node ctx.

(** Resolution changes nothing in the tree but the child mapping of a
    [BuildStepsJsonResource]; its build holds that object under
    ['steps'], and sees the change. *)
Definition store_child (self : resource) (pathElement : string) (child : resource) : resource :=
  match self, child with
  | BuildJsonResource bs _, BuildStepsJsonResource _ steps =>
      if bool_decide (pathElement = "steps") then BuildJsonResource bs steps else self
  | _, _ => self
  end.

(** The loop [while request.postpath and not child.isLeaf].  The
    result is the resource the walk started from, as the walk leaves
    it, then the resource reached, the request, and the pointer. *)
Fixpoint walk (child : resource) (req : request) (node : document)
    (ctx : list (string * document)) (postpath_ : list string)
  : result (resource * (resource * request * document * list (string * document))) :=
  match postpath_ with
  | [] => Ok (child, (child, set_paths req (prepath req) [], node, ctx))
  | pathElement :: rest =>
      if isLeaf child
      then Ok (child, (child, set_paths req (prepath req) postpath_, node, ctx))
      else
        let req := set_paths req (prepath req ++ [pathElement]) rest in
        '(self, next) ← getChildWithDefault child (PStr pathElement) req;
        '(next, reached) ← walk next req ∅ ((pathElement, node) :: ctx) rest;
        Ok (store_child self pathElement next, reached)
  end.

(** [filter(None, item.split('/'))] *)
Definition segments (item : string) : list string :=
  List.filter (λ s, negb (String.eqb s "")) (Py.split "/" item).

(** The body of [for item in select]; the state is [self] and [data].
    The request's two path lists are put back at the end, so every
    item starts from the same request. *)
Definition select_item (req : request) (st : resource * document) (item : string)
  : result (resource * document) :=
  let '(self, data) := st in
  '(self, (child, req', node, ctx)) ← walk self req data [] (segments item);
  child_dict ← (if hasattr_asDict child then asDict child req'
                else Ok (VDict {[ KStr "error" := VStr "Not available" ]}));
  node ← dict_update node child_dict;
  Ok (self, rebuild node ctx).

(** [select.sort(cmp=lambda x, y: cmp(x.count('/'), y.count('/')),
    reverse=True)]: most slashes first, ties in the order given. *)
Definition sort_select (select : list string) : list string :=
  Py.sorted (λ x y, (Py.count "/" y <=? Py.count "/" x)%nat) select.

(** The [if select is not None] branch of [content]: [data]. *)
Definition select_data (self : resource) (req : request) (select : list string)
  : result document :=
  let req := set_args req (delete "select" (args req)) in
  let select := sort_select (map (Py.strip "/") select) in
  '(_, data) ← for_each (select_item req) (self, ∅) select;
  Ok data.

(** [JsonResource.content] up to the value handed to [json.dumps];
    the serialisation and the JSONP wrapper are left out. *)
Definition content (self : resource) (req : request) : result value :=
  let select := args req !! "select" in
  as_text ← RequestArgToBool req "as_text" false;
  filter_out ← RequestArgToBool req "filter" as_text;
  compact ← RequestArgToBool req "compact" (negb as_text);
  data ← match select with
         | Some select => VDict <$> select_data self req select
         | None => asDict self req
         end;
  Ok (if filter_out : bool then FilterOut data else data).

(** ** The pending-build listings *)

(** [QueueJsonResource.asDict] *)
Definition QueueJsonResource_asDict (status : status) (req : request) : result value :=
  let unclaimed_brq := getUnclaimedBuildRequest status true in
  Ok (VList (map (λ br, br_asDict_async br None) unclaimed_brq)).

(** [SinglePendingBuildsJsonResource.asDict]; [br.sort_value] is
    [br.getSubmitTime()], and [sort_queue] is the difference of two of
    them. *)
Definition sort_queue (br otherBR : build_request_status) : Z :=
  getSubmitTime br - getSubmitTime otherBR.

Definition SinglePendingBuildsJsonResource_asDict (builder : builder_status)
    (req : request) : result value :=
  let builds := getPendingBuildRequestStatuses builder in
  let codebases := getCodebasesArg req in
  let pending :=
    List.filter (λ br, if (0 <? size codebases)%nat
                       then foundCodebasesInPendingBuild br codebases
                       else true) builds in
  let pending := Py.sorted (λ br otherBR, (sort_queue br otherBR <=? 0)%Z) pending in
  Ok (VList (map (λ b, br_asDict_async b (Some req)) pending)).

(** ** Notions used in the statements *)

(** The resolution that [walk] performs, without the document. *)
Fixpoint resolve (self : resource) (req : request) (postpath_ : list string)
  : result (resource * resource) :=
  match postpath_ with
  | [] => Ok (self, self)
  | pathElement :: rest =>
      let req := set_paths req (prepath req ++ [pathElement]) rest in
      '(self, next) ← getChildWithDefault self (PStr pathElement) req;
      '(next, reached) ← resolve next req rest;
      Ok (store_child self pathElement next, reached)
  end.

(** Where the pointer is after the segments [postpath_]. *)
Fixpoint descend (node : document) (ctx : list (string * document))
    (postpath_ : list string) : document * list (string * document) :=
  match postpath_ with
  | [] => (node, ctx)
  | pathElement :: rest => descend ∅ ((pathElement, node) :: ctx) rest
  end.

(** One mapping per segment, each holding only the next, around
    [leaf]. *)
Fixpoint nest (postpath_ : list string) (leaf : document) : document :=
  match postpath_ with
  | [] => leaf
  | pathElement :: rest => {[ KStr pathElement := VDict (nest rest leaf) ]}
  end.

(** What [select_item] hands to [node.update]. *)
Definition child_dict_of (child : resource) (req : request) : result value :=
  if hasattr_asDict child then asDict child req
  else Ok (VDict {[ KStr "error" := VStr "Not available" ]}).

(** A resource without the children that resolution has added. *)
Definition erase (r : resource) : resource :=
  match r with
  | BuildJsonResource bs _ => BuildJsonResource bs ∅
  | BuildStepsJsonResource bs _ => BuildStepsJsonResource bs ∅
  | _ => r
  end.

(** [child.asDict] passes the filters of [AllBuildsJsonResource.asDict]. *)
Definition passes (req : request) (bs : build_status) : bool :=
  (bool_decide (size (getCodebasesArg req) = 0%nat)
   || foundCodebasesInBuild bs (getCodebasesArg req))
  && match getResultsArg req with
     | Some rs => match results bs with
                  | Some r => bool_decide (r ∈ rs)
                  | None => false
                  end
     | None => true
     end.

(** One turn of the loop of [AllBuildsJsonResource.asDict], as a
    function of [results]. *)
Definition all_builds_step (b : builder_status) (req : request)
    (d : gmap key value) (i : Z) : gmap key value :=
  match getBuild b (- i) with
  | Some bs => if passes req bs
               then <[KInt (getNumber bs) := build_asDict bs (Some req)]> d
               else d
  | None => d
  end.

(** The pending requests that pass the codebase filter of
    [SinglePendingBuildsJsonResource.asDict]. *)
Definition surviving (req : request) (builds : list build_request_status)
  : list build_request_status :=
  List.filter (λ br, if (0 <? size (getCodebasesArg req))%nat
                     then foundCodebasesInPendingBuild br (getCodebasesArg req)
                     else true) builds.

(** [A/B] *)
Definition join_path (A B : string) : string := A +:+ "/" +:+ B.

(** ** Sample data *)

Module Sample.

Definition request0 : request :=
  {| args := ∅; prepath := []; postpath := [];
     getCodebasesArg := ∅; getResultsArg := None |}.

Definition compile : step_status :=
  mkStep "compile" (λ _, VDict {[ KStr "name" := VStr "compile" ]}).
Definition unit_tests : step_status :=
  mkStep "unit_tests" (λ _, VDict {[ KStr "name" := VStr "unit_tests" ]}).

Definition build (n : Z) : build_status :=
  {| getNumber := n; results := Some 0%Z; branch := "master";
     getSourceStamps_0 :=
       mkSourceStamp [mkChange (Some 7%Z) 1000 (VDict {[ KStr "rev" := VStr "abc" ]})]
                     (VDict {[ KStr "branch" := VStr "master" ]});
     getSteps := [compile; unit_tests];
     build_asDict := λ _, VDict {[ KStr "number" := VInt n ]};
     foundCodebasesInBuild := λ _, true |}.

(** A builder with the builds 1..10, all of them cached. *)
Definition builder : builder_status :=
  {| history := map build (rev (seqZ 1 10)); cache := seqZ 1 10; caches_Builds := 10;
     getCachedBuilds := λ _, map build (seqZ 1 10);
     getPendingBuildRequestStatuses := [] |}.

(** The query [max=3]. *)
Definition request_max3 : request :=
  {| args := {[ "max" := ["3"] ]}; prepath := []; postpath := [];
     getCodebasesArg := ∅; getResultsArg := None |}.

(** A query with one codebase constraint, and a pending request that
    does not meet it. *)
Definition request_codebase : request :=
  {| args := ∅; prepath := []; postpath := [];
     getCodebasesArg := {[ "katana" := "trunk" ]}; getResultsArg := None |}.

Definition pending (id time : Z) (found : bool) : build_request_status :=
  {| brid := id; buildername := "runtests"; getSubmitTime := time;
     foundCodebasesInPendingBuild := λ _, found;
     br_asDict_async := λ _, VDict {[ KStr "brid" := VInt id ]} |}.

Definition status0 : status :=
  {| getUnclaimedBuildRequest := λ _, [pending 1 30 false] |}.

Definition builder_pending : builder_status :=
  {| history := []; cache := []; caches_Builds := 10;
     getCachedBuilds := λ _, [];
     getPendingBuildRequestStatuses :=
       [pending 1 30 true; pending 2 10 true; pending 3 20 true; pending 4 5 false] |}.

End Sample.

(** ** Further notions used in the statements *)

(** The number of constructors of a value; recursion on values goes
    by it. *)
Fixpoint value_size (v : value) : nat :=
  match v with
  | VList l => S (list_sum (map value_size l))
  | VDict d => S (map_fold (λ (_ : key) n acc, n + acc)%nat 0%nat (value_size <$> d))
  | _ => 1
  end.

(** No mapping in the value, at any depth, has an entry whose value
    [FilterOut] counts as empty. *)
Fixpoint no_empty_entry (v : value) : Prop :=
  match v with
  | VList l => Forall id (map no_empty_entry l)
  | VDict d =>
      map_Forall (λ _ v, in_empties v = false) d
      ∧ map_Forall (λ (_ : key) (p : Prop), p) (no_empty_entry <$> d)
  | _ => True
  end.

(** Resources whose child mapping resolution changes: a steps
    container, and the build that holds it. *)
Definition has_step_memo (r : resource) : bool :=
  match r with
  | BuildJsonResource _ _ | BuildStepsJsonResource _ _ => true
  | _ => false
  end.

(** The first segment of a [select] entry. *)
Definition first_segment (item : string) : option string := head (segments item).

(** ** The JSONP wrapper of [JsonResource.content] *)

(** The pattern [^[a-zA-Z$_][a-zA-Z$0-9._]*$] given to [re.match]: the
    two character classes, and what may follow the first character,
    where [$] finds the end of the string or the place just before a
    final line feed. *)
Definition callback_first (a : ascii) : bool :=
  let n := nat_of_ascii a in
  ((97 <=? n) && (n <=? 122))%nat || ((65 <=? n) && (n <=? 90))%nat
  || Ascii.eqb a "$" || Ascii.eqb a "_".

Definition callback_next (a : ascii) : bool :=
  let n := nat_of_ascii a in
  ((97 <=? n) && (n <=? 122))%nat || ((65 <=? n) && (n <=? 90))%nat
  || Ascii.eqb a "$" || ((48 <=? n) && (n <=? 57))%nat
  || Ascii.eqb a "." || Ascii.eqb a "_".

Fixpoint callback_tail (s : string) : bool :=
  match s with
  | EmptyString => true
  | String a s' =>
      if callback_next a then callback_tail s'
      else Ascii.eqb a "010"%char && bool_decide (s' = EmptyString)
  end.

Definition callback_match (callback : string) : bool :=
  match callback with
  | String a rest => callback_first a && callback_tail rest
  | EmptyString => false
  end.

(** The end of [content], from [if callback:] on; [data] is the text
    that [json.dumps] returned. *)
Definition content_callback (req : request) (data : string) : string :=
  let callback := args req !! "callback" in
  match callback with
  | Some (callback :: _) =>
      if callback_match callback then callback +:+ "(" +:+ data +:+ ");" else data
  | Some [] | None => data
  end.

(** A first character of the first class, then characters of the
    second class, then at most one line feed. *)
Definition identifier_like (callback : string) : Prop :=
  ∃ a body,
    callback_first a = true ∧
    Forall (λ c, callback_next c = true) (list_ascii_of_string body) ∧
    (callback = String a body ∨ callback = String a (body +:+ String "010"%char EmptyString)).

(** ** The builds of a slave *)

(** The status objects as far as [SlaveBuildsJsonResource] and the
    slave branch of [PastBuildsJsonResource.asDict] read them.  The
    classes are not part of the sources at hand; a method the exporter
    only calls is a field. *)
Record slave_status := mkSlave {
  slave_getName : string;              (* slave_status.getName() *)
}.

Record slave_build := mkSlaveBuild {
  getSlavename : string;
  slave_build_asDict : request → value;    (* rb.asDict(request=request) *)
}.

Record slave_builder := mkSlaveBuilder {
  builder_getName : string;
  getSlaves : list slave_status;
  getCurrentBuilds : list slave_build;
}.

Record master_status := mkMasterStatus {
  getBuilderNames : list string;
  getBuilder : string → slave_builder;
  (* list(status.generateFinishedBuilds(builders=...)), in the order yielded *)
  status_generateFinishedBuilds : list string → list slave_build;
}.

(** The two nested loops that collect [my_builders]. *)
Definition my_builders (status : master_status) (slavename : string) : list slave_builder :=
  foldl (λ my_builders bname,
           let b := getBuilder status bname in
           foldl (λ my_builders bs,
                    if bool_decide (slave_getName bs = slavename)
                    then my_builders ++ [b] else my_builders)
                 my_builders (getSlaves b))
        [] (getBuilderNames status).

(** The loop over the finished builds, with its [return] in the
    middle; the state is [n] and [recent_builds]. *)
Fixpoint recent_builds_loop (slavename : string) (number : Z) (req : request)
    (n : Z) (recent_builds : list value) (finished : list slave_build) : list value :=
  match finished with
  | [] => recent_builds
  | rb :: finished =>
      if bool_decide (getSlavename rb = slavename) then
        let n := (n + 1)%Z in
        let recent_builds := recent_builds ++ [slave_build_asDict rb req] in
        if (number <? n)%Z then recent_builds
        else recent_builds_loop slavename number req n recent_builds finished
      else recent_builds_loop slavename number req n recent_builds finished
  end.

(** [PastBuildsJsonResource.asDict] for a node made with a
    [slave_status], as [SlaveBuildsJsonResource.getChild] makes it. *)
Definition PastBuildsJsonResource_asDict_slave (status : master_status) (number : Z)
    (slave : slave_status) (req : request) : list value :=
  let slavename := slave_getName slave in
  let my_builders := my_builders status slavename in
  recent_builds_loop slavename number req 0 []
    (status_generateFinishedBuilds status (map builder_getName my_builders)).

(** [SlaveBuildsJsonResource.asDict] *)
Definition SlaveBuildsJsonResource_asDict (status : master_status) (slave : slave_status)
    (req : request) : list value :=
  let slavename := slave_getName slave in
  let my_builders := my_builders status slavename in
  foldl (λ current_builds b,
           foldl (λ current_builds cb,
                    if bool_decide (getSlavename cb = slavename)
                    then current_builds ++ [slave_build_asDict cb req]
                    else current_builds)
                 current_builds (getCurrentBuilds b))
        [] my_builders.

(** * Properties *)

(** ** FilterOut *)

Lemma FilterOut_dict_lookup (d : gmap key value) (k : key) :
  ∃ d', FilterOut (VDict d) = VDict d' ∧
        d' !! k = (d !! k) ≫= (λ v, if in_empties (FilterOut v) then None
                                    else Some (FilterOut v)).
Proof.
  simpl. eexists. split; [reflexivity|].
  rewrite lookup_omap. destruct (d !! k) as [v|]; simpl; [|done].
  by destruct (in_empties (FilterOut v)).
Qed.

Lemma FilterOut_list_all_empty (l : list value) :
  Forall (λ v, in_empties (FilterOut v) = true) l → FilterOut (VList l) = VNone.
Proof.
  intros Hall. simpl.
  assert (filter (λ x, negb (in_empties x) = true) (map FilterOut l) = []) as ->; [|done].
  induction Hall as [|v l Hv _ IH]; [done|].
  simpl. rewrite filter_cons. rewrite Hv. simpl.
  destruct (decide (false = true)); [done|]. exact IH.
Qed.

Example FilterOut_a_b :
  FilterOut (VDict (<[KStr "a" := VList []]> {[ KStr "b" := VInt 1 ]}))
  = VDict {[ KStr "b" := VInt 1 ]}.
Proof. vm_compute. reflexivity. Qed.

(** C7 (code defect).  The claim keeps every numeric value; the code
    compares with [==] against [False], so the integer zero goes too:
    the mapping {"a": 0, "b": 1} filters to {"b": 1}. *)
Theorem FilterOut_removes_zero :
  FilterOut (VDict (<[KStr "a" := VInt 0]> {[ KStr "b" := VInt 1 ]}))
  = VDict {[ KStr "b" := VInt 1 ]}.
Proof. vm_compute. reflexivity. Qed.

(** ** Integers in path segments *)

Lemma is_digit_not_space a : Py.is_digit a = true → Py.is_space a = false.
Proof. destruct a as [[] [] [] [] [] [] [] []]; vm_compute; congruence. Qed.

Lemma is_digit_not_lt a : Py.is_digit a = true → Ascii.eqb a "<" = false.
Proof. destruct a as [[] [] [] [] [] [] [] []]; vm_compute; congruence. Qed.

Lemma rstrip_space_cons a s :
  Py.is_space a = false →
  Py.rstrip_space (String a s) = String a (Py.rstrip_space s).
Proof. intros Ha. simpl. rewrite Ha. by destruct (Py.rstrip_space s). Qed.

Lemma digits_then_end_digits s :
  digits_then_end s = true → ∀ acc, is_Some (Py.digits acc (Py.rstrip_space s)).
Proof.
  induction s as [|a s IH]; intros Hs acc; simpl in Hs.
  - by eexists.
  - destruct (Py.is_digit a) eqn:Ha.
    + rewrite rstrip_space_cons by by apply is_digit_not_space.
      simpl. rewrite Ha. by apply IH.
    + apply andb_prop in Hs as [Hnl Hs'].
      apply Ascii.eqb_eq in Hnl as ->. apply bool_decide_eq_true in Hs' as ->.
      by eexists.
Qed.

Lemma digits_then_end_no_lt s :
  digits_then_end s = true → Py.contains "<" s = false.
Proof.
  induction s as [|a s IH]; intros Hs; simpl in *; [done|].
  destruct (Py.is_digit a) eqn:Ha.
  - rewrite is_digit_not_lt by done. by apply IH.
  - apply andb_prop in Hs as [Hnl Hs'].
    apply Ascii.eqb_eq in Hnl as ->. by apply bool_decide_eq_true in Hs' as ->.
Qed.

Lemma IS_INT_int path : _IS_INT path = true → is_Some (Py.int path).
Proof.
  unfold _IS_INT, Py.int. intros H.
  destruct path as [|c s]; [done|].
  assert (Py.is_space c = false) as Hc.
  { destruct c as [[] [] [] [] [] [] [] []]; try reflexivity; exfalso;
      revert H; simpl; destruct s; vm_compute; congruence. }
  simpl Py.lstrip_space. rewrite Hc. rewrite rstrip_space_cons by done.
  assert (∀ body, (match body with
                   | String a rest => Py.is_digit a && digits_then_end rest
                   | EmptyString => false
                   end) = true → is_Some (Py.unsigned (Py.rstrip_space body))) as Hbody.
  { intros [|a rest] Hb; [done|]. apply andb_prop in Hb as [Ha Hrest].
    rewrite rstrip_space_cons by by apply is_digit_not_space.
    simpl. rewrite Ha. by apply digits_then_end_digits. }
  destruct (ascii_dec c "-") as [->|Hm].
  { apply Hbody in H as [n Hn]. rewrite Hn. by eexists. }
  destruct (ascii_dec c "+") as [->|Hp].
  { by apply Hbody in H. }
  assert (_IS_INT (String c s) = Py.is_digit c && digits_then_end s) as Heq.
  { unfold _IS_INT. destruct c as [[] [] [] [] [] [] [] []]; try reflexivity; congruence. }
  unfold _IS_INT in Heq. rewrite Heq in H.
  assert (Py.int (String c s) = Py.unsigned (Py.rstrip_space (String c s))) as Hint.
  { unfold Py.int. simpl Py.lstrip_space. rewrite Hc.
    rewrite rstrip_space_cons by done.
    destruct c as [[] [] [] [] [] [] [] []]; try reflexivity; congruence. }
  unfold Py.int in Hint. simpl Py.lstrip_space in Hint. rewrite Hc in Hint.
  rewrite rstrip_space_cons in Hint by done. rewrite Hint.
  rewrite <- rstrip_space_cons by done. apply Hbody. exact H.
Qed.

Lemma IS_INT_no_lt path : _IS_INT path = true → Py.contains "<" path = false.
Proof.
  intros H. destruct (Py.contains "<" path) eqn:Hlt; [|done]. exfalso.
  unfold _IS_INT in H. destruct path as [|c s]; [done|].
  assert (∀ body, (match body with
                   | String a rest => Py.is_digit a && digits_then_end rest
                   | EmptyString => false
                   end) = true → Py.contains "<" body = false) as Hbody.
  { intros [|a rest] Hb; [done|]. apply andb_prop in Hb as [Ha Hrest].
    simpl. rewrite is_digit_not_lt by done. by apply digits_then_end_no_lt. }
  destruct (ascii_dec c "-") as [->|Hm].
  { apply Hbody in H. simpl in Hlt. congruence. }
  destruct (ascii_dec c "+") as [->|Hp].
  { apply Hbody in H. simpl in Hlt. congruence. }
  assert (_IS_INT (String c s) = Py.is_digit c && digits_then_end s) as Heq.
  { unfold _IS_INT. destruct c as [[] [] [] [] [] [] [] []]; try reflexivity; congruence. }
  unfold _IS_INT in Heq. rewrite Heq in H.
  apply (Hbody (String c s)) in H. congruence.
Qed.

Lemma IS_INT_not_name path :
  _IS_INT path = true → path ≠ "" ∧ path ≠ "help" ∧ path ≠ "_all".
Proof. intros H. repeat split; intros ->; vm_compute in H; congruence. Qed.

Lemma contains_lt_not_name path :
  Py.contains "<" path = true → path ≠ "" ∧ path ≠ "help" ∧ path ≠ "_all".
Proof. intros H. repeat split; intros ->; vm_compute in H; congruence. Qed.

(** ** Resolution under the builds containers *)

Lemma getChildWithDefault_AllBuilds b (s : string) req :
  ¬ (s = "" ∧ postpath req = []) → s ≠ "help" →
  getChildWithDefault (AllBuildsJsonResource b) (PStr s) req
  = AllBuildsJsonResource_getChild (AllBuildsJsonResource b) b (PStr s).
Proof.
  intros Hempty Hhelp. unfold getChildWithDefault, getChildWithDefault_base.
  destruct (bool_decide (PStr s = PStr "") && bool_decide (postpath req = [])) eqn:E.
  { apply andb_prop in E as [E1 E2]. apply bool_decide_eq_true in E1, E2.
    destruct Hempty. split; congruence. }
  rewrite (bool_decide_eq_false_2 (PStr s = PStr "help")) by congruence.
  simpl. by rewrite lookup_empty.
Qed.

Lemma getChildWithDefault_Builds b (s : string) req :
  ¬ (s = "" ∧ postpath req = []) → s ≠ "help" → s ≠ "_all" →
  getChildWithDefault (BuildsJsonResource b) (PStr s) req
  = '(_, child) ← AllBuildsJsonResource_getChild (AllBuildsJsonResource b) b (PStr s);
    Ok (BuildsJsonResource b, child).
Proof.
  intros Hempty Hhelp Hall. unfold getChildWithDefault, getChildWithDefault_base.
  destruct (bool_decide (PStr s = PStr "") && bool_decide (postpath req = [])) eqn:E.
  { apply andb_prop in E as [E1 E2]. apply bool_decide_eq_true in E1, E2.
    destruct Hempty. split; congruence. }
  rewrite (bool_decide_eq_false_2 (PStr s = PStr "help")) by congruence.
  simpl. rewrite lookup_singleton_ne by done. by rewrite lookup_empty.
Qed.

Lemma getBuild_Some b n bs :
  getBuild b n = Some bs →
  getNumber bs ∈ cache b ∧
  if (0 <=? n)%Z then getNumber bs = n ∧ bs ∈ history b
  else history b !! Z.to_nat (- n - 1) = Some bs.
Proof.
  unfold getBuild. intros H.
  destruct (if (0 <=? n)%Z then _ else _) as [build|] eqn:E; simpl in H; [|done].
  case_bool_decide as Hc; [|done]. injection H as <-. split; [done|].
  destruct (0 <=? n)%Z; [|done].
  apply find_some in E as [Hin Hn]. split; [by apply Z.eqb_eq|].
  by apply list_elem_of_In.
Qed.

(** C4.  A segment that [_IS_INT] accepts parses as an integer [n], and
    under a builds container it resolves to the build that [getBuild]
    gives for [n], else to [NoResource] (not found).  The build comes
    from the cache; for [n >= 0] it is the build numbered [n], for
    [n < 0] the [|n|]-th most recent one.  With the builds 1..10
    cached, [-1], [-3], [7] and [-20] give build 10, build 8, build 7
    and not found. *)
Theorem builds_integer_segment :
  (∀ b req (segment : string),
     _IS_INT segment = true →
     ∃ n, Py.int segment = Some n ∧
          getChildWithDefault (BuildsJsonResource b) (PStr segment) req
          = Ok (BuildsJsonResource b,
                match getBuild b n with
                | Some build_status => BuildJsonResource build_status ∅
                | None => NoResource
                end) ∧
          ∀ build_status, getBuild b n = Some build_status →
            getNumber build_status ∈ cache b ∧
            ((0 ≤ n)%Z → getNumber build_status = n ∧ build_status ∈ history b) ∧
            ((n < 0)%Z → history b !! Z.to_nat (Z.abs n - 1) = Some build_status)) ∧
  (∀ req,
     let resolved segment :=
       getChildWithDefault (BuildsJsonResource Sample.builder) (PStr segment) req in
     resolved "-1" = Ok (BuildsJsonResource Sample.builder,
                         BuildJsonResource (Sample.build 10) ∅) ∧
     resolved "-3" = Ok (BuildsJsonResource Sample.builder,
                         BuildJsonResource (Sample.build 8) ∅) ∧
     resolved "7" = Ok (BuildsJsonResource Sample.builder,
                        BuildJsonResource (Sample.build 7) ∅) ∧
     resolved "-20" = Ok (BuildsJsonResource Sample.builder, NoResource)).
Proof.
  split.
  - intros b req segment Hint.
    destruct (IS_INT_int _ Hint) as [n Hn]. exists n. split; [done|].
    destruct (IS_INT_not_name _ Hint) as (He & Hh & Ha).
    split.
    + rewrite getChildWithDefault_Builds by tauto.
      unfold AllBuildsJsonResource_getChild. simpl is_int. rewrite Hint.
      simpl. rewrite Hn. simpl. by destruct (getBuild b n).
    + intros bs Hbs. apply getBuild_Some in Hbs as [Hc Hrest]. split; [done|].
      destruct (0 <=? n)%Z eqn:E.
      * apply Z.leb_le in E. split; [done|lia].
      * apply Z.leb_gt in E. split; [lia|]. intros _.
        by replace (Z.abs n - 1)%Z with (- n - 1)%Z by lia.
  - intros req resolved. unfold resolved.
    repeat split; rewrite getChildWithDefault_Builds by (try done; intros [? _]; done);
      reflexivity.
Qed.

Lemma builds_integer_segment_witness :
  _IS_INT "-1" = true ∧
  ∃ n, Py.int "-1" = Some n ∧
       getChildWithDefault (BuildsJsonResource Sample.builder) (PStr "-1") Sample.request0
       = Ok (BuildsJsonResource Sample.builder,
             match getBuild Sample.builder n with
             | Some build_status => BuildJsonResource build_status ∅
             | None => NoResource
             end).
Proof.
  split; [reflexivity|].
  destruct (proj1 builds_integer_segment Sample.builder Sample.request0 "-1" eq_refl)
    as (n & Hn & Hr & _).
  exists n. split; [exact Hn | exact Hr].
Defined.

(** C8.  Under a builds container a segment that contains the
    less-than sign resolves to a [PastBuildsJsonResource] whose number
    is the integer left when the sign is removed, or 15 when that does
    not parse.  The node renders the builds that the history scan
    yields for that number: the first [number] builds, most recent
    first, that satisfy the branch, codebase and result filters of the
    request, or all of them when there are fewer.  [<5] gives 5 and
    [<abc] gives 15. *)
Theorem lastN_segment :
  (∀ b req (segment : string),
     Py.contains "<" segment = true →
     let number := default 15%Z (Py.int (Py.remove "<" segment)) in
     let branches := List.filter (λ b, negb (String.eqb b ""))
                       (default [] (args req !! "branch")) in
     let matching := List.filter
                       (satisfies branches (getCodebasesArg req) (getResultsArg req))
                       (history b) in
     getChildWithDefault (BuildsJsonResource b) (PStr segment) req
     = Ok (BuildsJsonResource b, PastBuildsJsonResource number b) ∧
     asDict (PastBuildsJsonResource number b) req
     = Ok (VList (map (λ bs, build_asDict bs (Some req))
                      (take (Z.to_nat number) matching))) ∧
     length (take (Z.to_nat number) matching)
     = Nat.min (Z.to_nat number) (length matching)) ∧
  default 15%Z (Py.int (Py.remove "<" "<5")) = 5%Z ∧
  default 15%Z (Py.int (Py.remove "<" "<abc")) = 15%Z.
Proof.
  split; [|split; reflexivity].
  intros b req segment Hlt number branches matching.
  destruct (contains_lt_not_name _ Hlt) as (He & Hh & Ha).
  split; [|split].
  - rewrite getChildWithDefault_Builds by tauto.
    unfold AllBuildsJsonResource_getChild. simpl is_int.
    destruct (_IS_INT segment) eqn:Hint.
    { apply IS_INT_no_lt in Hint. congruence. }
    rewrite Hlt. simpl. unfold number.
    by destruct (Py.int (Py.remove "<" segment)).
  - reflexivity.
  - apply length_take.
Qed.

Lemma lastN_segment_witness :
  Py.contains "<" "<5" = true ∧
  getChildWithDefault (BuildsJsonResource Sample.builder) (PStr "<5") Sample.request0
  = Ok (BuildsJsonResource Sample.builder,
        PastBuildsJsonResource (default 15%Z (Py.int (Py.remove "<" "<5"))) Sample.builder).
Proof.
  split; [reflexivity|].
  exact (proj1 (proj1 lastN_segment Sample.builder Sample.request0 "<5" eq_refl)).
Defined.

(** C10, as stated, fails: ['help'] is no static child of the builds
    node, and it resolves to the help page of the builds node there
    and to the help page of the [_all] node under [_all]. *)
Lemma builds_delegation_counterexample :
  ¬ (∀ segment : string,
       children (BuildsJsonResource Sample.builder) !! segment = None →
       snd <$> getChildWithDefault (BuildsJsonResource Sample.builder) (PStr segment)
                 Sample.request0
       = snd <$> getChildWithDefault (AllBuildsJsonResource Sample.builder) (PStr segment)
                   Sample.request0).
Proof.
  intros H. specialize (H "help" eq_refl). vm_compute in H. discriminate H.
Qed.

(** C10, amended.  A segment that is no static child of the builds node,
    is not ['help'] and is not the empty segment that ends the URL
    resolves under [builds] to the node it resolves to under
    [builds/_all]. *)
Theorem builds_delegation b req (segment : string) :
  children (BuildsJsonResource b) !! segment = None →
  segment ≠ "help" →
  ¬ (segment = "" ∧ postpath req = []) →
  snd <$> getChildWithDefault (BuildsJsonResource b) (PStr segment) req
  = snd <$> getChildWithDefault (AllBuildsJsonResource b) (PStr segment) req.
Proof.
  intros Hstatic Hhelp Hempty.
  assert (segment ≠ "_all") as Hall.
  { intros ->. simpl in Hstatic. by rewrite lookup_singleton_eq in Hstatic. }
  rewrite getChildWithDefault_Builds, getChildWithDefault_AllBuilds by done.
  destruct (AllBuildsJsonResource_getChild _ b (PStr segment)) as [[? ?]|]; done.
Qed.

Lemma builds_delegation_witness :
  snd <$> getChildWithDefault (BuildsJsonResource Sample.builder) (PStr "-1") Sample.request0
  = snd <$> getChildWithDefault (AllBuildsJsonResource Sample.builder) (PStr "-1")
              Sample.request0.
Proof.
  apply builds_delegation; [reflexivity | discriminate | intros [? _]; discriminate].
Defined.

(** ** Children added by resolution *)

Lemma steps_dict_get_Some path steps i j st :
  steps_dict_get path steps i = Some (j, st) →
  getName st = path ∧ (i ≤ j)%nat ∧ steps !! (j - i)%nat = Some st.
Proof.
  revert i. induction steps as [|step rest IH]; intros i H; simpl in H; [done|].
  destruct (steps_dict_get path rest (S i)) as [[j' st']|] eqn:E.
  - injection H as -> ->. apply IH in E as (Hn & Hle & Hl).
    split; [done|]. split; [lia|].
    replace (j - i)%nat with (S (j - S i)) by lia. done.
  - case_bool_decide as Hn; [|done]. injection H as <- <-.
    split; [done|]. split; [lia|]. by rewrite Nat.sub_diag.
Qed.

Lemma getitem_Some {A} (l : list A) i pos x :
  getitem l i = Ok (pos, x) → l !! pos = Some x.
Proof.
  unfold getitem. destruct (_ && _)%bool; [|done].
  destruct (l !! _) eqn:E; [|done]. intros [= <- <-]. done.
Qed.

Lemma BuildStepsJsonResource_getChild_Ok self bs steps path self' child :
  BuildStepsJsonResource_getChild self bs steps path = Ok (self', child) →
  (self' = self ∧ child = NoResource) ∨
  ∃ index st, getSteps bs !! index = Some st ∧
    (is_int path = false → path = PStr (getName st)) ∧
    child = BuildStepJsonResource st ∧
    self' = BuildStepsJsonResource bs
              (<[getName st := st]> (<[Py.str (Z.of_nat index) := st]> steps)).
Proof.
  unfold BuildStepsJsonResource_getChild. intros H.
  destruct (is_int path) eqn:Hint.
  - destruct (int path) as [n|] eqn:Hn; simpl in H; [|done].
    destruct (getitem (getSteps bs) n) as [[index st]|] eqn:Hg; simpl in H; [|done].
    injection H as <- <-. right. exists index, st.
    split; [by eapply getitem_Some|]. done.
  - simpl in H. destruct path as [s|n]; [|done].
    destruct (steps_dict_get s (getSteps bs) 0) as [[index st]|] eqn:Hg.
    + injection H as <- <-. right. exists index, st.
      apply steps_dict_get_Some in Hg as (Hn & _ & Hl).
      rewrite Nat.sub_0_r in Hl. split; [done|]. split; [by rewrite Hn|]. done.
    + injection H as <- <-. by left.
Qed.

(** C5, as stated, fails: the builds containers construct a node at
    every resolution and store nothing.  After a builder's [_all] node
    has resolved [-1] to a build, its child mapping is still empty,
    and so the next resolution of [-1] constructs a build again. *)
Lemma memoization_counterexample :
  ∃ self' child,
    getChildWithDefault (AllBuildsJsonResource Sample.builder) (PStr "-1") Sample.request0
    = Ok (self', child) ∧
    isinstance_JsonResource child = true ∧
    children self' !! "-1" = None ∧
    children self' = ∅.
Proof. do 2 eexists. split; [reflexivity|]. done. Qed.

(** C5, amended.  When a [BuildStepsJsonResource] constructs a child
    for a segment, the child is in the node's child mapping afterwards,
    under the decimal index of the step and under the step's name.  If
    the segment is one of these two keys (a step name always is; an
    integer is when it is written as [str] writes it), resolving it
    again returns the stored child and changes nothing. *)
Theorem steps_child_memoized bs steps (path : string) req self' child :
  children (BuildStepsJsonResource bs steps) !! path = None →
  path ≠ "help" →
  ¬ (path = "" ∧ postpath req = []) →
  getChildWithDefault (BuildStepsJsonResource bs steps) (PStr path) req = Ok (self', child) →
  isinstance_JsonResource child = true →
  ∃ index st,
    getSteps bs !! index = Some st ∧
    child = BuildStepJsonResource st ∧
    children self' !! Py.str (Z.of_nat index) = Some child ∧
    children self' !! getName st = Some child ∧
    (path = Py.str (Z.of_nat index) ∨ path = getName st →
     children self' !! path = Some child ∧
     getChildWithDefault self' (PStr path) req = Ok (self', child)) ∧
    (_IS_INT path = false → path = getName st).
Proof.
  intros Hstatic Hhelp Hempty Hres Hjson.
  assert (∀ self, help self ≠ "" → ∀ getChild,
            getChildWithDefault_base self (PStr path) req getChild
            = match children self !! path with
              | Some c => Ok (self, c)
              | None => getChild
              end) as Hbase.
  { intros self _ getChild. unfold getChildWithDefault_base.
    destruct (bool_decide (PStr path = PStr "") && bool_decide (postpath req = [])) eqn:E.
    { apply andb_prop in E as [E1 E2]. apply bool_decide_eq_true in E1, E2.
      destruct Hempty. split; congruence. }
    by rewrite (bool_decide_eq_false_2 (PStr path = PStr "help")) by congruence. }
  unfold getChildWithDefault in Hres. rewrite Hbase in Hres by done.
  rewrite Hstatic in Hres.
  apply BuildStepsJsonResource_getChild_Ok in Hres as [[-> ->]|Hres]; [done|].
  destruct Hres as (index & st & Hl & Hname & -> & ->).
  exists index, st. split; [done|]. split; [done|].
  assert (children (BuildStepsJsonResource bs
            (<[getName st := st]> (<[Py.str (Z.of_nat index) := st]> steps)))
          !! Py.str (Z.of_nat index) = Some (BuildStepJsonResource st)) as Hidx.
  { simpl. rewrite lookup_fmap.
    destruct (decide (getName st = Py.str (Z.of_nat index))) as [->|Hne].
    - by rewrite lookup_insert_eq.
    - rewrite lookup_insert_ne by done. by rewrite lookup_insert_eq. }
  assert (children (BuildStepsJsonResource bs
            (<[getName st := st]> (<[Py.str (Z.of_nat index) := st]> steps)))
          !! getName st = Some (BuildStepJsonResource st)) as Hnm.
  { simpl. rewrite lookup_fmap. by rewrite lookup_insert_eq. }
  split; [done|]. split; [done|]. split.
  - intros Hkey.
    assert (children (BuildStepsJsonResource bs
              (<[getName st := st]> (<[Py.str (Z.of_nat index) := st]> steps)))
            !! path = Some (BuildStepJsonResource st)) as Hp.
    { destruct Hkey as [->| ->]; done. }
    split; [done|].
    unfold getChildWithDefault. rewrite Hbase by done. by rewrite Hp.
  - intros Hint. specialize (Hname Hint). congruence.
Qed.

Lemma steps_child_memoized_witness :
  ∃ index st,
    getSteps (Sample.build 5) !! index = Some st ∧
    BuildStepJsonResource Sample.compile = BuildStepJsonResource st.
Proof.
  destruct (steps_child_memoized (Sample.build 5) ∅ "compile" Sample.request0
              (BuildStepsJsonResource (Sample.build 5)
                 (<["compile" := Sample.compile]> (<["0" := Sample.compile]> ∅)))
              (BuildStepJsonResource Sample.compile))
    as (index & st & Hl & Hc & _).
  - reflexivity.
  - discriminate.
  - intros [? _]; discriminate.
  - reflexivity.
  - reflexivity.
  - exists index, st. split; [exact Hl | exact Hc].
Defined.

(** ** Rendering of the [_all] node *)

Lemma getChildWithDefault_AllBuilds_int b i req :
  getChildWithDefault (AllBuildsJsonResource b) (PInt i) req
  = Ok (AllBuildsJsonResource b,
        match getBuild b i with
        | Some bs => BuildJsonResource bs ∅
        | None => NoResource
        end).
Proof.
  unfold getChildWithDefault, getChildWithDefault_base.
  rewrite (bool_decide_eq_false_2 (PInt i = PStr "")) by done.
  rewrite (bool_decide_eq_false_2 (PInt i = PStr "help")) by done.
  simpl. unfold AllBuildsJsonResource_getChild. simpl.
  by destruct (getBuild b i).
Qed.

Lemma AllBuildsJsonResource_asDict_body_step b req d i :
  AllBuildsJsonResource_asDict_body req (getCodebasesArg req) (getResultsArg req)
    (AllBuildsJsonResource b, d) i
  = Ok (AllBuildsJsonResource b, all_builds_step b req d i).
Proof.
  unfold AllBuildsJsonResource_asDict_body, all_builds_step.
  rewrite getChildWithDefault_AllBuilds_int. simpl.
  destruct (getBuild b (- i)) as [bs|]; [|done].
  unfold passes.
  destruct (bool_decide (size (getCodebasesArg req) = 0%nat));
    destruct (foundCodebasesInBuild bs (getCodebasesArg req));
    destruct (getResultsArg req) as [rs|]; simpl; try done;
    destruct (results bs) as [r|]; simpl; try done;
    destruct (bool_decide (r ∈ rs)); done.
Qed.

Lemma all_builds_loop b req l : ∀ d,
  for_each (AllBuildsJsonResource_asDict_body req (getCodebasesArg req) (getResultsArg req))
    (AllBuildsJsonResource b, d) l
  = Ok (AllBuildsJsonResource b, foldl (all_builds_step b req) d l).
Proof.
  induction l as [|i l IH]; intros d; [done|].
  cbn [for_each]. rewrite AllBuildsJsonResource_asDict_body_step. simpl. apply IH.
Qed.

Lemma all_builds_fold b req l : ∀ d,
  let d' := foldl (all_builds_step b req) d l in
  (size d' ≤ size d + length l)%nat ∧
  (∀ k, is_Some (d !! k) → is_Some (d' !! k)) ∧
  (∀ k v, d' !! k = Some v →
     d !! k = Some v ∨
     ∃ i bs, i ∈ l ∧ getBuild b (- i) = Some bs ∧ passes req bs = true ∧
             k = KInt (getNumber bs) ∧ v = build_asDict bs (Some req)) ∧
  (∀ i bs, i ∈ l → getBuild b (- i) = Some bs → passes req bs = true →
     is_Some (d' !! KInt (getNumber bs))).
Proof.
  induction l as [|i l IH]; intros d; simpl.
  { repeat split; [lia|done|by left|]. intros ? ? Hin. by apply elem_of_nil in Hin. }
  specialize (IH (all_builds_step b req d i)). simpl in IH.
  destruct IH as (Hsize & Hmono & Hfrom & Hall).
  assert (size (all_builds_step b req d i) ≤ S (size d))%nat as Hs1.
  { unfold all_builds_step. destruct (getBuild b (- i)) as [bs|]; [|lia].
    destruct (passes req bs); [|lia].
    destruct (d !! KInt (getNumber bs)) eqn:E.
    - rewrite map_size_insert_Some by done. lia.
    - rewrite map_size_insert_None by done. lia. }
  assert (∀ k, is_Some (d !! k) → is_Some (all_builds_step b req d i !! k)) as Hm1.
  { intros k Hk. unfold all_builds_step. destruct (getBuild b (- i)) as [bs|]; [|done].
    destruct (passes req bs); [|done].
    destruct (decide (KInt (getNumber bs) = k)) as [->|Hne].
    - rewrite lookup_insert_eq. by eexists.
    - by rewrite lookup_insert_ne. }
  split; [lia|]. split; [by auto|]. split.
  - intros k v Hk. apply Hfrom in Hk as [Hk|Hk].
    + unfold all_builds_step in Hk. destruct (getBuild b (- i)) as [bs|] eqn:Hb; [|by left].
      destruct (passes req bs) eqn:Hp; [|by left].
      destruct (decide (KInt (getNumber bs) = k)) as [<-|Hne].
      * rewrite lookup_insert_eq in Hk. injection Hk as <-.
        right. exists i, bs. split; [by left|]. done.
      * rewrite lookup_insert_ne in Hk by done. by left.
    + destruct Hk as (i' & bs & Hin & ?). right. exists i', bs. split; [by right|]. done.
  - intros i' bs Hin Hb Hp. apply elem_of_cons in Hin as [->|Hin].
    + apply Hmono. unfold all_builds_step. rewrite Hb, Hp. rewrite lookup_insert_eq.
      by eexists.
    + by eapply Hall.
Qed.

(** C3, as stated, fails: the loop of [AllBuildsJsonResource.asDict]
    runs [max] times.  With the builds 1..10, all cached and none
    filtered out, the query [max=3] leaves build 5 out. *)
Lemma all_builds_counterexample :
  ∃ d, asDict (AllBuildsJsonResource Sample.builder) Sample.request_max3 = Ok (VDict d) ∧
       Sample.build 5 ∈ history Sample.builder ∧
       passes Sample.request_max3 (Sample.build 5) = true ∧
       d !! KInt 5 = None.
Proof.
  eexists. split; [vm_compute; reflexivity|].
  split; [|split; [reflexivity|vm_compute; reflexivity]].
  apply list_elem_of_In. vm_compute. tauto.
Qed.

(** C3, amended.  The [_all] node renders a mapping from build number
    to build with at most [max] entries, where [max] is the request's
    [max] argument or else the configured cache size.  Every entry is
    a build that [getBuild] returns for one of the indices [-i],
    [0 <= i < max], and that passes the codebase and result filters of
    the request (there is no branch filter); every such build with
    [1 <= i], that is each of the [max - 1] most recent cached builds,
    has its entry. *)
Theorem all_builds_rendering b req max :
  max_arg req (caches_Builds b) = Ok max →
  ∃ d, asDict (AllBuildsJsonResource b) req = Ok (VDict d) ∧
       (size d ≤ Z.to_nat max)%nat ∧
       (∀ k v, d !! k = Some v →
          ∃ i bs, (0 ≤ i < max)%Z ∧ getBuild b (- i) = Some bs ∧ passes req bs = true ∧
                  k = KInt (getNumber bs) ∧ v = build_asDict bs (Some req)) ∧
       (∀ i bs, (1 ≤ i < max)%Z → getBuild b (- i) = Some bs → passes req bs = true →
          is_Some (d !! KInt (getNumber bs))).
Proof.
  intros Hmax. unfold asDict. simpl. unfold AllBuildsJsonResource_asDict.
  rewrite Hmax. simpl. rewrite all_builds_loop. simpl.
  eexists. split; [reflexivity|].
  destruct (all_builds_fold b req (seqZ 0 max) ∅) as (Hsize & _ & Hfrom & Hall).
  simpl in *. split; [|split].
  - rewrite map_size_empty, length_seqZ in Hsize. lia.
  - intros k v Hk. apply Hfrom in Hk as [Hk|Hk]; [by rewrite lookup_empty in Hk|].
    destruct Hk as (i & bs & Hin & ?). exists i, bs.
    apply elem_of_seqZ in Hin. split; [lia|done].
  - intros i bs Hi Hb Hp.
    apply (Hall i bs); [apply elem_of_seqZ; lia|done|done].
Qed.

Lemma all_builds_rendering_witness :
  max_arg Sample.request_max3 (caches_Builds Sample.builder) = Ok 3%Z ∧
  ∃ d, asDict (AllBuildsJsonResource Sample.builder) Sample.request_max3 = Ok (VDict d) ∧
       (size d ≤ Z.to_nat 3)%nat.
Proof.
  split; [reflexivity|].
  destruct (all_builds_rendering Sample.builder Sample.request_max3 3 eq_refl)
    as (d & Hd & Hsize & _).
  exists d. split; [exact Hd | exact Hsize].
Defined.

(** ** Sorting by an integer key *)

Section Sorting.
Context {A : Type} (sort_value : A → Z).

Let le (x y : A) : bool := (sort_value x - sort_value y <=? 0)%Z.

Lemma insert_sorted_perm x l : Permutation (Py.insert_sorted le x l) (x :: l).
Proof.
  induction l as [|y l IH]; simpl; [done|].
  destruct (le x y); [done|].
  rewrite IH. apply perm_swap.
Qed.

Lemma sorted_perm l : Permutation (Py.sorted le l) l.
Proof.
  induction l as [|x l IH]; simpl; [done|].
  rewrite insert_sorted_perm. by constructor.
Qed.

Lemma insert_sorted_sorted x l :
  StronglySorted (λ x y, (sort_value x ≤ sort_value y)%Z) l →
  StronglySorted (λ x y, (sort_value x ≤ sort_value y)%Z) (Py.insert_sorted le x l).
Proof.
  induction 1 as [|y l Hl IH Hy]; simpl.
  { repeat constructor. }
  unfold le at 1. destruct (Z.leb_spec (sort_value x - sort_value y) 0) as [Hxy|Hxy].
  - constructor; [by constructor|].
    constructor; [lia|].
    eapply Forall_impl; [exact Hy|]. simpl. intros z Hz. lia.
  - constructor; [exact IH|].
    eapply Permutation_Forall; [symmetry; apply insert_sorted_perm|].
    constructor; [lia|done].
Qed.

Lemma sorted_sorted l :
  StronglySorted (λ x y, (sort_value x ≤ sort_value y)%Z) (Py.sorted le l).
Proof.
  induction l as [|x l IH]; simpl; [constructor|]. by apply insert_sorted_sorted.
Qed.

(** Stability: elements with one key stay in the order they came in. *)
Lemma insert_sorted_stable t x l :
  StronglySorted (λ x y, (sort_value x ≤ sort_value y)%Z) l →
  List.filter (λ y, (sort_value y =? t)%Z) (Py.insert_sorted le x l)
  = List.filter (λ y, (sort_value y =? t)%Z) (x :: l).
Proof.
  induction 1 as [|y l Hl IH Hy]; [done|].
  cbn [Py.insert_sorted]. unfold le at 1.
  destruct (Z.leb_spec (sort_value x - sort_value y) 0) as [Hxy|Hxy]; [done|].
  cbn [List.filter] in *. rewrite IH.
  destruct (Z.eqb_spec (sort_value y) t) as [Hyt|Hyt];
    destruct (Z.eqb_spec (sort_value x) t) as [Hxt|Hxt]; try done.
  lia.
Qed.

Lemma sorted_stable t l :
  List.filter (λ y, (sort_value y =? t)%Z) (Py.sorted le l)
  = List.filter (λ y, (sort_value y =? t)%Z) l.
Proof.
  induction l as [|x l IH]; [done|].
  cbn [Py.sorted foldr]. rewrite insert_sorted_stable by apply sorted_sorted.
  cbn [List.filter]. unfold Py.sorted in IH. by rewrite IH.
Qed.
End Sorting.

(** ** The pending-build listings *)

(** C6, as stated, fails for the global queue, which
    [QueueJsonResource.asDict] renders without looking at the
    codebase constraints of the request: a pending request that does
    not meet the constraint is listed. *)
Lemma queue_counterexample :
  getCodebasesArg Sample.request_codebase ≠ ∅ ∧
  foundCodebasesInPendingBuild (Sample.pending 1 30 false)
    (getCodebasesArg Sample.request_codebase) = false ∧
  QueueJsonResource_asDict Sample.status0 Sample.request_codebase
  = Ok (VList [br_asDict_async (Sample.pending 1 30 false) None]).
Proof.
  split; [|split; reflexivity].
  intros H. apply (f_equal (λ m, m !! "katana")) in H. vm_compute in H. discriminate H.
Qed.

(** C6, amended.  For a single builder the listing holds exactly the
    pending requests that meet the codebase constraints of the request
    (all of them when there is none), in non-decreasing order of
    submit time, requests with one submit time in the order of the
    builder's list; so the order is fixed by that list and the submit
    times.  The global queue lists every unclaimed request, in the
    order the store returns them. *)
Theorem pending_listings builder status req :
  (∃ pending,
     SinglePendingBuildsJsonResource_asDict builder req
     = Ok (VList (map (λ b, br_asDict_async b (Some req)) pending)) ∧
     Permutation pending (surviving req (getPendingBuildRequestStatuses builder)) ∧
     StronglySorted (λ x y, (getSubmitTime x ≤ getSubmitTime y)%Z) pending ∧
     ∀ t, List.filter (λ br, (getSubmitTime br =? t)%Z) pending
          = List.filter (λ br, (getSubmitTime br =? t)%Z)
              (surviving req (getPendingBuildRequestStatuses builder))) ∧
  QueueJsonResource_asDict status req
  = Ok (VList (map (λ br, br_asDict_async br None) (getUnclaimedBuildRequest status true))).
Proof.
  split; [|reflexivity].
  eexists. split; [reflexivity|]. split; [|split].
  - apply (sorted_perm getSubmitTime).
  - apply (sorted_sorted getSubmitTime).
  - intros t. apply (sorted_stable getSubmitTime).
Qed.

Example pending_listing_sample :
  SinglePendingBuildsJsonResource_asDict Sample.builder_pending Sample.request_codebase
  = Ok (VList (map (λ b, br_asDict_async b (Some Sample.request_codebase))
                 [Sample.pending 2 10 true; Sample.pending 3 20 true;
                  Sample.pending 1 30 true])).
Proof. reflexivity. Qed.

(** ** The select composer: one item *)

Lemma set_paths_set_paths req a b c d :
  set_paths (set_paths req a b) c d = set_paths req c d.
Proof. reflexivity. Qed.

Lemma walk_resolve segs : ∀ child req node ctx,
  walk child req node ctx segs
  = '(self, reached) ← resolve child req segs;
    Ok (self, (reached, set_paths req (prepath req ++ segs) [],
               (descend node ctx segs).1, (descend node ctx segs).2)).
Proof.
  induction segs as [|pe rest IH]; intros child req node ctx.
  - simpl. unfold descend. simpl. by rewrite app_nil_r.
  - cbn [walk resolve]. unfold isLeaf.
    change (descend node ctx (pe :: rest)) with (descend ∅ ((pe, node) :: ctx) rest).
    destruct (getChildWithDefault child (PStr pe) _) as [[self next]|e]; [|done].
    simpl. rewrite IH.
    destruct (resolve next _ rest) as [[next' reached]|e]; [|done].
    simpl. by rewrite <- app_assoc.
Qed.

Lemma rebuild_descend rest : ∀ s node ctx leaf,
  (descend node ctx (s :: rest)).1 = ∅ ∧
  rebuild leaf (descend node ctx (s :: rest)).2
  = rebuild (<[KStr s := VDict (nest rest leaf)]> node) ctx.
Proof.
  induction rest as [|s2 rest IH]; intros s node ctx leaf.
  - done.
  - change (descend node ctx (s :: s2 :: rest))
      with (descend ∅ ((s, node) :: ctx) (s2 :: rest)).
    destruct (IH s2 ∅ ((s, node) :: ctx) leaf) as [-> ->]. split; [done|].
    simpl. by rewrite insert_empty.
Qed.

#[local] Arguments rebuild : simpl never.
#[local] Arguments descend : simpl never.
#[local] Arguments dict_update : simpl never.

(** What one item of the selection does to [data]. *)
Lemma select_item_spec req self data item :
  select_item req (self, data) item
  = '(self', reached) ← resolve self req (segments item);
    child_dict ← child_dict_of reached
                   (set_paths req (prepath req ++ segments item) []);
    match segments item with
    | [] => node ← dict_update data child_dict; Ok (self', node)
    | s :: rest =>
        leaf ← dict_update ∅ child_dict;
        Ok (self', <[KStr s := VDict (nest rest leaf)]> data)
    end.
Proof.
  unfold select_item. rewrite walk_resolve.
  destruct (resolve self req (segments item)) as [[self' reached]|e]; [|done].
  simpl. unfold child_dict_of.
  destruct (if hasattr_asDict reached then _ else _) as [child_dict|e]; [|done].
  simpl. destruct (segments item) as [|s rest].
  - simpl. by destruct (dict_update data child_dict).
  - destruct (rebuild_descend rest s data [] ∅) as [-> _].
    destruct (dict_update ∅ child_dict) as [leaf|e]; [|done].
    simpl. by destruct (rebuild_descend rest s data [] leaf) as [_ ->].
Qed.

Lemma resolve_NoResource segs req :
  resolve NoResource req segs = Ok (NoResource, NoResource).
Proof.
  revert req. induction segs as [|pe rest IH]; intros req; [done|].
  cbn [resolve]. simpl. by rewrite IH.
Qed.

(** C1, as stated, fails: a mapping that is already there is replaced,
    not reused.  At a builds node the selection [-1/steps] alone puts
    the steps under ["-1"]; with the selection [-1] after it, what is
    under ["-1"] is the build's own rendering and the steps are
    gone. *)
Lemma shared_prefix_counterexample :
  (∃ d m, select_data (BuildsJsonResource Sample.builder) Sample.request0 ["-1/steps"]
          = Ok d ∧
          d !! KStr "-1" = Some (VDict m) ∧ is_Some (m !! KStr "steps")) ∧
  (∃ d m, select_data (BuildsJsonResource Sample.builder) Sample.request0
            ["-1/steps"; "-1"] = Ok d ∧
          d !! KStr "-1" = Some (VDict m) ∧ m !! KStr "steps" = None).
Proof.
  split.
  - do 2 eexists. split; [vm_compute; reflexivity|].
    split; [vm_compute; reflexivity|]. vm_compute. by eexists.
  - do 2 eexists. split; [vm_compute; reflexivity|].
    split; [vm_compute; reflexivity|]. vm_compute. reflexivity.
Qed.

(** C1, amended.  An item with the segments [s], [rest] puts under [s]
    a new mapping that holds one nested mapping per further segment
    and, innermost, what the resource reached renders.  The new mapping
    replaces whatever the document had under [s] and does not depend on
    it; the other keys of the document stay as they are. *)
Theorem select_item_new_mapping self req data item s rest self' data' :
  segments item = s :: rest →
  select_item req (self, data) item = Ok (self', data') →
  ∃ leaf,
    data' = <[KStr s := VDict (nest rest leaf)]> data ∧
    (∀ k, k ≠ KStr s → data' !! k = data !! k) ∧
    ∀ data2, select_item req (self, data2) item
             = Ok (self', <[KStr s := VDict (nest rest leaf)]> data2).
Proof.
  intros Hsegs Hitem. rewrite select_item_spec, Hsegs in Hitem.
  destruct (resolve self req (s :: rest)) as [[self1 reached]|e] eqn:Hres; [|done].
  simpl in Hitem.
  destruct (child_dict_of reached _) as [child_dict|e] eqn:Hcd; [|done].
  simpl in Hitem.
  destruct (dict_update ∅ child_dict) as [leaf|e] eqn:Hup; [|done].
  simpl in Hitem. injection Hitem as <- <-.
  exists leaf. split; [done|]. split.
  - intros k Hk. by rewrite lookup_insert_ne.
  - intros data2. rewrite select_item_spec, Hsegs, Hres. simpl.
    rewrite Hcd. simpl. by rewrite Hup.
Qed.

Lemma select_item_new_mapping_witness :
  ∃ leaf,
    <[KStr "-1" := VDict {[ KStr "number" := VInt 10 ]}]> (∅ : gmap key value)
    = <[KStr "-1" := VDict (nest [] leaf)]> ∅.
Proof.
  destruct (select_item_new_mapping (BuildsJsonResource Sample.builder) Sample.request0 ∅
              "-1" "-1" [] (BuildsJsonResource Sample.builder)
              (<[KStr "-1" := VDict {[ KStr "number" := VInt 10 ]}]> ∅))
    as (leaf & Hleaf & _).
  - reflexivity.
  - vm_compute. reflexivity.
  - exists leaf. exact Hleaf.
Defined.

(** ** Resolution and the children it adds *)

Lemma getChildWithDefault_base_nonempty self (pe : string) req getChild :
  pe ≠ "" →
  getChildWithDefault_base self (PStr pe) req getChild
  = if bool_decide (PStr pe = PStr "help") && negb (bool_decide (help self = ""))
    then Ok (self, HelpResource (help self)
                     (if bool_decide (pageTitle self = "") then ""
                      else pageTitle self +:+ " help")
                     (dom (children self)))
    else match children self !! pe with
         | Some child => Ok (self, child)
         | None => getChild
         end.
Proof.
  intros Hpe. unfold getChildWithDefault_base.
  by rewrite (bool_decide_eq_false_2 (PStr pe = PStr "")) by congruence.
Qed.

Lemma getChildWithDefault_req (pe : string) self req1 req2 :
  pe ≠ "" →
  getChildWithDefault self (PStr pe) req1 = getChildWithDefault self (PStr pe) req2.
Proof.
  intros Hpe. unfold getChildWithDefault.
  destruct self; rewrite ?getChildWithDefault_base_nonempty by done; reflexivity.
Qed.

Lemma AllBuildsJsonResource_getChild_self self b path self' child :
  AllBuildsJsonResource_getChild self b path = Ok (self', child) → self' = self.
Proof.
  unfold AllBuildsJsonResource_getChild, JsonResource_getChild. intros H.
  repeat (match type of H with
          | context [if ?b then _ else _] => destruct b
          | context [match ?p with PStr _ => _ | PInt _ => _ end] => destruct p
          | context [match ?o with Some _ => _ | None => _ end] => destruct o eqn:?
          | context [mbind _ ?m] => destruct m eqn:?; simpl in H
          end; try (by injection H as <- <-); try done).
Qed.

Lemma getChildWithDefault_erase self path req self' child :
  getChildWithDefault self path req = Ok (self', child) → erase self' = erase self.
Proof.
  unfold getChildWithDefault, getChildWithDefault_base, JsonResource_getChild.
  intros H.
  destruct self; try (by injection H as <- <-);
    repeat (match type of H with
            | context [if ?b then _ else _] => destruct b
            | context [match ?p with PStr _ => _ | PInt _ => _ end] => destruct p
            | context [match ?o with Some _ => _ | None => _ end] =>
                destruct o eqn:?
            | context [mbind _ ?m] => destruct m as [[? ?]|] eqn:?; simpl in H
            end; try (by injection H as <- <-); try done).
  all: try (apply BuildStepsJsonResource_getChild_Ok in H
              as [[-> _]|(? & ? & _ & _ & _ & ->)]; done).
  all: by apply AllBuildsJsonResource_getChild_self in H as ->.
Qed.

Lemma store_child_erase self pe child : erase (store_child self pe child) = erase self.
Proof. destruct self, child; simpl; try done. by case_bool_decide. Qed.

Lemma resolve_erase segs : ∀ self req self' reached,
  resolve self req segs = Ok (self', reached) → erase self' = erase self.
Proof.
  induction segs as [|pe rest IH]; intros self req self' reached H.
  - by injection H as <- <-.
  - cbn [resolve] in H.
    destruct (getChildWithDefault self (PStr pe) _) as [[self_a next]|] eqn:Hg; [|done].
    simpl in H. destruct (resolve next _ rest) as [[next' r]|] eqn:Hr; [|done].
    simpl in H. injection H as <- <-.
    rewrite store_child_erase. by eapply getChildWithDefault_erase.
Qed.

Lemma child_dict_of_erase r1 r2 req :
  erase r1 = erase r2 → child_dict_of r1 req = child_dict_of r2 req.
Proof.
  intros H. destruct r1, r2; simpl in H; try discriminate H;
    try (injection H; intros; subst); reflexivity.
Qed.


Lemma getChildWithDefault_self self path req self' child :
  (∀ bs steps, self ≠ BuildStepsJsonResource bs steps) →
  getChildWithDefault self path req = Ok (self', child) → self' = self.
Proof.
  unfold getChildWithDefault, getChildWithDefault_base, JsonResource_getChild.
  intros Hself H.
  destruct self; try (by injection H as <- <-); try (by exfalso; eapply Hself);
    repeat (match type of H with
            | context [if ?b then _ else _] => destruct b
            | context [match ?p with PStr _ => _ | PInt _ => _ end] => destruct p
            | context [match ?o with Some _ => _ | None => _ end] =>
                destruct o eqn:?
            | context [mbind _ ?m] => destruct m as [[? ?]|] eqn:?; simpl in H
            end; try (by injection H as <- <-); try done).
  all: by apply AllBuildsJsonResource_getChild_self in H as ->.
Qed.

(** What [BuildStepsJsonResource.getChild] finds depends on the build
    and the segment only. *)
Lemma BuildStepsJsonResource_getChild_other self bs steps path self' child self2 steps2 :
  BuildStepsJsonResource_getChild self bs steps path = Ok (self', child) →
  (self' = self ∧ child = NoResource ∧
   BuildStepsJsonResource_getChild self2 bs steps2 path = Ok (self2, NoResource)) ∨
  ∃ index st,
    child = BuildStepJsonResource st ∧
    self' = BuildStepsJsonResource bs
              (<[getName st := st]> (<[Py.str (Z.of_nat index) := st]> steps)) ∧
    BuildStepsJsonResource_getChild self2 bs steps2 path
    = Ok (BuildStepsJsonResource bs
            (<[getName st := st]> (<[Py.str (Z.of_nat index) := st]> steps2)),
          BuildStepJsonResource st).
Proof.
  unfold BuildStepsJsonResource_getChild, JsonResource_getChild.
  destruct (if is_int path then _ else _) as [[[index st]|]|]; simpl; [| |done].
  - intros [= <- <-]. right. by exists index, st.
  - intros [= <- <-]. by left.
Qed.

Lemma insert2_idemp (k1 k2 : string) (st : step_status) (m : gmap string step_status) :
  <[k1 := st]> (<[k2 := st]> (<[k1 := st]> (<[k2 := st]> m)))
  = <[k1 := st]> (<[k2 := st]> m).
Proof.
  apply map_eq. intros k. rewrite !lookup_insert. by repeat case_decide.
Qed.

(** Resolving a segment again after the walk below it has come back
    with [c1] in the place of [c]. *)
Lemma getChildWithDefault_again self (pe : string) req self_a c c1 :
  getChildWithDefault self (PStr pe) req = Ok (self_a, c) →
  erase c1 = erase c →
  ∃ c', getChildWithDefault (store_child self_a pe c1) (PStr pe) req
        = Ok (store_child self_a pe c1, c') ∧ (c' = c1 ∨ c' = c).
Proof.
  intros Hg Hc1.
  assert ((∃ bs steps, self = BuildStepsJsonResource bs steps)
          ∨ ∀ bs steps, self ≠ BuildStepsJsonResource bs steps)
    as [(bs & steps & ->)|Hns].
  { destruct self; try (by right); left; eauto. }
  - (* the steps of a build: the child just constructed is stored *)
    assert (∀ steps', store_child (BuildStepsJsonResource bs steps') pe c1
                      = BuildStepsJsonResource bs steps') as Hst by (by destruct c1).
    unfold getChildWithDefault, getChildWithDefault_base in Hg.
    destruct (bool_decide (PStr pe = PStr "") && bool_decide (postpath req = [])) eqn:E1.
    { injection Hg as <- <-. rewrite Hst.
      unfold getChildWithDefault, getChildWithDefault_base. rewrite E1.
      eexists. split; [reflexivity|by right]. }
    destruct (bool_decide (PStr pe = PStr "help") && _) eqn:E2.
    { injection Hg as <- <-. rewrite Hst.
      unfold getChildWithDefault, getChildWithDefault_base. rewrite E1, E2.
      eexists. split; [reflexivity|by right]. }
    destruct (children (BuildStepsJsonResource bs steps) !! pe) as [child|] eqn:E3.
    { injection Hg as <- <-. rewrite Hst.
      unfold getChildWithDefault, getChildWithDefault_base. rewrite E1, E2, E3.
      eexists. split; [reflexivity|by right]. }
    destruct (BuildStepsJsonResource_getChild_other _ _ _ _ _ _
                (BuildStepsJsonResource bs steps) steps Hg)
      as [(-> & -> & _)|(index & st & -> & -> & _)].
    { rewrite Hst. unfold getChildWithDefault, getChildWithDefault_base.
      rewrite E1, E2, E3. exists NoResource. split; [exact Hg|by right]. }
    exists (BuildStepJsonResource st). split; [|by right].
    rewrite Hst.
    set (steps' := <[getName st := st]> (<[Py.str (Z.of_nat index) := st]> steps)).
    unfold getChildWithDefault, getChildWithDefault_base.
    rewrite E1.
    change (help (BuildStepsJsonResource bs steps'))
      with (help (BuildStepsJsonResource bs steps)).
    rewrite E2.
    destruct (children (BuildStepsJsonResource bs steps') !! pe) as [child|] eqn:E4.
    + f_equal. f_equal.
      simpl in E4. rewrite lookup_fmap in E4. unfold steps' in E4.
      simpl in E3. rewrite lookup_fmap in E3.
      destruct (decide (getName st = pe)) as [<-|Hn1].
      { rewrite lookup_insert_eq in E4. by injection E4 as <-. }
      rewrite lookup_insert_ne in E4 by done.
      destruct (decide (Py.str (Z.of_nat index) = pe)) as [<-|Hn2].
      { rewrite lookup_insert_eq in E4. by injection E4 as <-. }
      rewrite lookup_insert_ne in E4 by done. congruence.
    + destruct (BuildStepsJsonResource_getChild_other _ _ _ _ _ _
                  (BuildStepsJsonResource bs steps') steps' Hg)
        as [(_ & [=] & _)|(index' & st' & [= <-] & Hs & ->)].
      f_equal. f_equal. f_equal.
      injection Hs as Hs. unfold steps'. rewrite Hs. apply insert2_idemp.
  - pose proof (getChildWithDefault_self _ _ _ _ _ Hns Hg) as ->.
    destruct self as [b|b|n b|bs steps|bs steps|st|ss|chs|ch|t1 t2 pc|];
      try (exists c; split; [exact Hg|by right]).
    (* a build: its [steps] child comes back with the children added below *)
    destruct c1 as [| | | |bs' steps1| | | | | |];
      try (exists c; split; [exact Hg|by right]).
    cbn [store_child]. case_bool_decide as Hpe; [subst pe|by exists c; split; [|right]].
    assert (c = BuildStepsJsonResource bs steps) as ->.
    { revert Hg. unfold getChildWithDefault, getChildWithDefault_base.
      rewrite (bool_decide_eq_false_2 (PStr "steps" = PStr "")) by done.
      rewrite (bool_decide_eq_false_2 (PStr "steps" = PStr "help")) by done.
      simpl. rewrite lookup_insert_ne by done. rewrite lookup_singleton_eq. congruence. }
    injection Hc1 as ->.
    exists (BuildStepsJsonResource bs steps1). split; [|by left].
    unfold getChildWithDefault, getChildWithDefault_base.
    rewrite (bool_decide_eq_false_2 (PStr "steps" = PStr "")) by done.
    rewrite (bool_decide_eq_false_2 (PStr "steps" = PStr "help")) by done.
    simpl. rewrite lookup_insert_ne by done. by rewrite lookup_singleton_eq.
Qed.

(** Walking a prefix of a path again, from the resource as the walk of
    the whole path has left it, reaches a resource of the same class
    with the same fields. *)
Lemma resolve_prefix p : ∀ q self req self1 reached,
  Forall (λ pe, pe ≠ "") p →
  resolve self req (p ++ q) = Ok (self1, reached) →
  ∀ req2, ∃ sp rp sp' rp',
    resolve self req2 p = Ok (sp, rp) ∧
    resolve self1 req2 p = Ok (sp', rp') ∧
    erase rp' = erase rp.
Proof.
  induction p as [|pe p IH]; intros q self req self1 reached Hne Hres req2.
  - exists self, self, self1, self1. split; [done|]. split; [done|].
    by eapply resolve_erase.
  - apply Forall_cons in Hne as [Hpe Hne].
    cbn [app resolve] in Hres.
    destruct (getChildWithDefault self (PStr pe) _) as [[self_a c]|] eqn:Hg; [|done].
    simpl in Hres.
    destruct (resolve c _ (p ++ q)) as [[c1 r]|] eqn:Hr; [|done].
    simpl in Hres. injection Hres as <- <-.
    set (req2' := set_paths req2 (prepath req2 ++ [pe]) p).
    destruct (IH _ _ _ _ _ Hne Hr req2') as (sp & rp & sp' & rp' & H1 & H2 & He).
    rewrite (getChildWithDefault_req pe self _ req2') in Hg by done.
    destruct (getChildWithDefault_again _ _ _ _ _ c1 Hg) as (c' & Hg' & Hc').
    { by eapply resolve_erase. }
    cbn [resolve]. fold req2'. rewrite Hg, Hg'. simpl. rewrite H1. simpl.
    destruct Hc' as [->| ->].
    + rewrite H2. simpl. by repeat eexists.
    + rewrite H1. simpl. by repeat eexists.
Qed.

(** ** Paths as strings *)

Section Split.
Context (c : ascii).

Lemma split_not_nil s : Py.split c s ≠ [].
Proof.
  destruct s as [|a s]; simpl; [done|].
  destruct (Ascii.eqb a c); [done|]. by destruct (Py.split c s).
Qed.

Lemma split_app s1 s2 :
  Py.split c (s1 +:+ String c s2) = Py.split c s1 ++ Py.split c s2.
Proof.
  induction s1 as [|a s1 IH]; simpl.
  - by rewrite Ascii.eqb_refl.
  - destruct (Ascii.eqb a c); [by rewrite IH|].
    rewrite IH. pose proof (split_not_nil s1).
    by destruct (Py.split c s1).
Qed.

Lemma filter_replicate_empty k :
  List.filter (λ s, negb (String.eqb s "")) (replicate k EmptyString) = [].
Proof. induction k; simpl; done. Qed.

Lemma split_cons a s :
  Py.split c (String a s)
  = if Ascii.eqb a c then EmptyString :: Py.split c s
    else match Py.split c s with
         | w :: ws => String a w :: ws
         | [] => [String a EmptyString]
         end.
Proof. reflexivity. Qed.

Lemma split_rstrip s :
  ∃ k, Py.split c s = Py.split c (Py.rstrip c s) ++ replicate k EmptyString.
Proof.
  induction s as [|a s [k IH]]; [by exists 0%nat|].
  cbn [Py.rstrip]. destruct (Py.rstrip c s) as [|b r] eqn:Hr.
  - rewrite split_cons, IH. destruct (Ascii.eqb a c) eqn:E.
    + by exists (S k).
    + exists k. by rewrite split_cons, E.
  - exists k. rewrite (split_cons a s), (split_cons a (String b r)), IH.
    destruct (Ascii.eqb a c); [done|].
    pose proof (split_not_nil (String b r)) as Hn.
    by destruct (Py.split c (String b r)).
Qed.

Lemma count_app s1 s2 : Py.count c (s1 +:+ s2) = (Py.count c s1 + Py.count c s2)%nat.
Proof. induction s1 as [|a s1 IH]; simpl; [done|]. rewrite IH. lia. Qed.

Lemma count_rstrip_le s : (Py.count c (Py.rstrip c s) ≤ Py.count c s)%nat.
Proof.
  induction s as [|a s IH]; simpl; [done|].
  destruct (Py.rstrip c s) as [|b r]; simpl in *.
  - destruct (Ascii.eqb a c) eqn:E; simpl; rewrite ?E; lia.
  - lia.
Qed.

Lemma lstrip_app s t :
  Py.lstrip c s ≠ "" → Py.lstrip c (s +:+ t) = Py.lstrip c s +:+ t.
Proof.
  induction s as [|a s IH]; simpl; [done|].
  destruct (Ascii.eqb a c); [exact IH|done].
Qed.

Lemma rstrip_app s t :
  Py.rstrip c t ≠ "" → Py.rstrip c (s +:+ t) = s +:+ Py.rstrip c t.
Proof.
  intros Ht. induction s as [|a s IH]; simpl; [done|].
  rewrite IH.
  change (String a s +:+ Py.rstrip c t) with (String a (s +:+ Py.rstrip c t)).
  destruct (s +:+ Py.rstrip c t) eqn:E; [|done].
  destruct s; simpl in E; [done|discriminate E].
Qed.

End Split.

Lemma segments_app A B : segments (join_path A B) = segments A ++ segments B.
Proof.
  unfold segments, join_path.
  change (A +:+ "/" +:+ B) with (A +:+ String "/" B).
  rewrite (split_app "/" A B). apply List.filter_app.
Qed.

Lemma segments_slash s : segments (String "/"%char s) = segments s.
Proof. unfold segments. simpl. done. Qed.

Lemma segments_lstrip s : segments (Py.lstrip "/"%char s) = segments s.
Proof.
  induction s as [|a s IH]; [done|]. simpl.
  destruct (Ascii.eqb_spec a "/"%char) as [->|Hne]; [|done].
  by rewrite IH, segments_slash.
Qed.

Lemma segments_rstrip s : segments (Py.rstrip "/"%char s) = segments s.
Proof.
  unfold segments. destruct (split_rstrip "/" s) as [k ->].
  by rewrite List.filter_app, filter_replicate_empty, app_nil_r.
Qed.

Lemma segments_strip s : segments (Py.strip "/"%char s) = segments s.
Proof. unfold Py.strip. by rewrite segments_rstrip, segments_lstrip. Qed.

Lemma segments_nonempty s : Forall (λ pe, pe ≠ "") (segments s).
Proof.
  unfold segments. apply Forall_forall. intros pe Hin.
  apply list_elem_of_In, filter_In in Hin as [_ Hpe]. intros ->. done.
Qed.

Lemma strip_join A B :
  segments A ≠ [] → segments B ≠ [] →
  Py.strip "/"%char (join_path A B) = Py.lstrip "/"%char A +:+ String "/"%char (Py.rstrip "/"%char B).
Proof.
  intros HA HB.
  assert (Py.lstrip "/"%char A ≠ "") as HA'.
  { intros E. apply HA. by rewrite <- segments_lstrip, E. }
  assert (Py.rstrip "/"%char B ≠ "") as HB'.
  { intros E. apply HB. by rewrite <- segments_rstrip, E. }
  unfold Py.strip, join_path. rewrite lstrip_app by done.
  change ("/" +:+ B) with (String "/" B).
  assert (Py.rstrip "/" (String "/" B) = String "/" (Py.rstrip "/" B)) as Hr.
  { cbn [Py.rstrip]. destruct (Py.rstrip "/" B); [by destruct HB'|done]. }
  rewrite rstrip_app; rewrite Hr; done.
Qed.

Lemma count_strip_join A B :
  segments A ≠ [] → segments B ≠ [] →
  (Py.count "/"%char (Py.strip "/"%char A) < Py.count "/"%char (Py.strip "/"%char (join_path A B)))%nat.
Proof.
  intros HA HB. rewrite strip_join by done. rewrite count_app.
  cbn [Py.count]. rewrite Ascii.eqb_refl. unfold Py.strip.
  pose proof (count_rstrip_le "/" (Py.lstrip "/"%char A)). lia.
Qed.



(** ** An ancestor and a descendant in one selection *)

#[local] Arguments select_item : simpl never.
#[local] Arguments dict_update : simpl never.
#[local] Arguments child_dict_of : simpl never.

Lemma sort_select_pair x y :
  (Py.count "/" y < Py.count "/" x)%nat →
  sort_select [x; y] = [x; y] ∧ sort_select [y; x] = [x; y].
Proof.
  intros H. unfold sort_select, Py.sorted. simpl.
  destruct (Nat.leb_spec (Py.count "/" y) (Py.count "/" x));
    destruct (Nat.leb_spec (Py.count "/" x) (Py.count "/" y)); try lia. done.
Qed.

Lemma select_items_pair req self a ab sA sB :
  segments a = sA → sA ≠ [] → segments ab = sA ++ sB →
  (∃ st, select_item req (self, ∅) ab = Ok st) →
  snd <$> for_each (select_item req) (self, ∅) [ab; a]
  = snd <$> for_each (select_item req) (self, ∅) [a].
Proof.
  intros Ha Hne Hab [[self1 d1] Hitem].
  destruct sA as [|s rest]; [done|].
  cbn [for_each]. rewrite Hitem. simpl.
  rewrite select_item_spec, Hab in Hitem. cbn [app] in Hitem.
  destruct (resolve self req (s :: rest ++ sB)) as [[self1' reached]|] eqn:Hres; [|done].
  simpl in Hitem.
  destruct (child_dict_of reached _) as [cd|]; [|done]. simpl in Hitem.
  destruct (dict_update ∅ cd) as [leaf|]; [|done]. simpl in Hitem.
  injection Hitem as -> <-.
  assert (Forall (λ pe, pe ≠ "") (s :: rest)) as Hnonempty.
  { rewrite <- Ha. apply segments_nonempty. }
  destruct (resolve_prefix (s :: rest) sB self req self1 reached Hnonempty Hres req)
    as (sp & rp & sp' & rp' & H1 & H2 & He).
  rewrite !select_item_spec, Ha, H1, H2. simpl.
  rewrite (child_dict_of_erase rp' rp) by done.
  destruct (child_dict_of rp _) as [cd'|]; [|done]. simpl.
  destruct (dict_update ∅ cd') as [leaf'|]; [|done]. simpl.
  by rewrite insert_insert_eq.
Qed.

Lemma select_data_for_each self req select :
  select_data self req select
  = snd <$> for_each (select_item (set_args req (delete "select" (args req))))
              (self, ∅) (sort_select (map (Py.strip "/") select)).
Proof.
  unfold select_data. cbv zeta.
  destruct (for_each _ _ _) as [[? ?]|]; reflexivity.
Qed.

(** C2, as stated, fails when [A] is the empty path, which selects the
    node itself: its rendering is merged into the document and the
    descendant is added next to it.  At a build, the selection of
    [''] and ['/steps'] has the steps, the selection of [''] alone has
    not. *)
Lemma overlay_counterexample :
  select_data (BuildJsonResource (Sample.build 5) ∅) Sample.request0
    [""; join_path "" "steps"]
  ≠ select_data (BuildJsonResource (Sample.build 5) ∅) Sample.request0 [""].
Proof.
  intros H.
  apply (f_equal (λ r, match r with Ok d => d !! KStr "steps" | Raise _ => None end)) in H.
  vm_compute in H. discriminate H.
Qed.

(** C2, amended.  Let [A] and [B] each have at least one segment, and
    let the selection of [A/B] alone compose without raising.  Then the
    selection of [A] and [A/B], in either order, composes to the same
    document as the selection of [A] alone. *)
Theorem select_ancestor_and_descendant self req (A B : string) :
  segments A ≠ [] → segments B ≠ [] →
  (∃ d, select_data self req [join_path A B] = Ok d) →
  select_data self req [A; join_path A B] = select_data self req [A] ∧
  select_data self req [join_path A B; A] = select_data self req [A].
Proof.
  intros HA HB [d Hd].
  pose proof (count_strip_join A B HA HB) as Hcount.
  set (a := Py.strip "/" A) in *. set (ab := Py.strip "/" (join_path A B)) in *.
  set (req0 := set_args req (delete "select" (args req))).
  assert (∃ st, select_item req0 (self, ∅) ab = Ok st) as Hitem.
  { unfold select_data in Hd. fold req0 in Hd. cbn [map] in Hd. fold ab in Hd.
    change (sort_select [ab]) with [ab] in Hd. cbn [for_each] in Hd.
    destruct (select_item req0 (self, ∅) ab) as [st|]; [by exists st|discriminate Hd]. }
  assert (snd <$> for_each (select_item req0) (self, ∅) [ab; a]
          = snd <$> for_each (select_item req0) (self, ∅) [a]) as Hpair.
  { apply (select_items_pair req0 self a ab (segments A) (segments B)); try done.
    - apply segments_strip.
    - unfold ab. by rewrite segments_strip, segments_app. }
  destruct (sort_select_pair ab a Hcount) as [Hs1 Hs2].
  rewrite !select_data_for_each. cbn [map]. fold a ab req0. rewrite Hs1, Hs2.
  change (sort_select [a]) with [a]. by rewrite Hpair.
Qed.

Lemma select_ancestor_and_descendant_witness :
  select_data (BuildsJsonResource Sample.builder) Sample.request0
    ["-1"; join_path "-1" "steps/0"]
  = select_data (BuildsJsonResource Sample.builder) Sample.request0 ["-1"].
Proof.
  refine (proj1 (select_ancestor_and_descendant (BuildsJsonResource Sample.builder)
                   Sample.request0 "-1" "steps/0" _ _ _)).
  - discriminate.
  - discriminate.
  - eexists. vm_compute. reflexivity.
Defined.

(** * Further properties *)

(** ** Induction on values *)

Lemma map_fold_sum_ge (m : gmap key nat) k n :
  m !! k = Some n → (n ≤ map_fold (λ (_ : key) n acc, n + acc) 0 m)%nat.
Proof.
  revert k n.
  apply (map_fold_weak_ind (λ r (m : gmap key nat), ∀ k n, m !! k = Some n → n ≤ r)%nat).
  - intros k n H. by rewrite lookup_empty in H.
  - intros i x m' r Hi IH k n Hk.
    destruct (decide (i = k)) as [->|Hne].
    + rewrite lookup_insert_eq in Hk. injection Hk as ->. lia.
    + rewrite lookup_insert_ne in Hk by done. specialize (IH _ _ Hk). lia.
Qed.

Lemma list_sum_ge (l : list nat) n : n ∈ l → (n ≤ list_sum l)%nat.
Proof.
  induction 1 as [|? ? ? ? IH]; simpl; lia.
Qed.

Lemma value_ind' (P : value → Prop) :
  P VNone → (∀ b, P (VBool b)) → (∀ n, P (VInt n)) → (∀ s, P (VStr s)) →
  (∀ l, Forall P l → P (VList l)) →
  (∀ d, map_Forall (λ _ v, P v) d → P (VDict d)) →
  ∀ v, P v.
Proof.
  intros HN HB HI HS HL HD v.
  assert (∀ n v, (value_size v < n)%nat → P v) as H; [|apply (H (S (value_size v))); lia].
  clear v. induction n as [|n IH]; intros v Hv; [lia|].
  destruct v as [| | | |l|d]; auto.
  - apply HL, Forall_forall. intros x Hx. apply IH.
    simpl in Hv. assert (value_size x ≤ list_sum (map value_size l))%nat; [|lia].
    apply list_sum_ge. by apply list_elem_of_fmap_2.
  - apply HD. intros k x Hx. apply IH.
    simpl in Hv.
    assert (value_size x ≤ map_fold (λ (_ : key) n acc, n + acc) 0 (value_size <$> d))%nat;
      [|lia].
    apply (map_fold_sum_ge _ k). by rewrite lookup_fmap, Hx.
Qed.

(** ** FilterOut, at every depth *)

Lemma filter_in_empties (items : list value) :
  match filter (λ x, negb (in_empties x) = true) items with
  | [] => true
  | _ :: _ => false
  end = forallb in_empties items.
Proof.
  induction items as [|x items IH]; [done|].
  rewrite filter_cons. simpl. destruct (in_empties x); simpl.
  - destruct (decide (false = true)); [done|]. exact IH.
  - by destruct (decide (true = true)).
Qed.

Lemma FilterOut_list l :
  FilterOut (VList l)
  = if forallb in_empties (map FilterOut l) then VNone else VList (map FilterOut l).
Proof.
  simpl. rewrite <- filter_in_empties.
  by destruct (filter _ (map FilterOut l)).
Qed.

Lemma FilterOut_FilterOut v : FilterOut (FilterOut v) = FilterOut v.
Proof.
  induction v as [| | | |l IH|d IH] using value_ind'; try reflexivity.
  - rewrite (FilterOut_list l).
    destruct (forallb in_empties (map FilterOut l)) eqn:E; [done|].
    rewrite FilterOut_list.
    assert (map FilterOut (map FilterOut l) = map FilterOut l) as ->.
    { rewrite map_map. apply map_ext_Forall. exact IH. }
    by rewrite E.
  - change (FilterOut (VDict d)) with
      (VDict (omap (λ v, let v' := FilterOut v in
                         if negb (in_empties v') then Some v' else None) d)).
    set (f := λ v, let v' := FilterOut v in if negb (in_empties v') then Some v' else None).
    change (FilterOut (VDict (omap f d))) with (VDict (omap f (omap f d))).
    f_equal. apply map_eq. intros k. rewrite !lookup_omap.
    destruct (d !! k) as [v|] eqn:Hk; [|done]. simpl.
    specialize (IH k v Hk). simpl in IH. unfold f at 2. simpl.
    destruct (in_empties (FilterOut v)) eqn:E; simpl.
    + unfold f. simpl. by rewrite E.
    + unfold f. simpl. by rewrite IH, E.
Qed.

Lemma FilterOut_no_empty_entry_list l :
  Forall (λ v, no_empty_entry (FilterOut v)) l →
  Forall id (map no_empty_entry (map FilterOut l)).
Proof.
  induction 1; simpl; constructor; done.
Qed.

Lemma no_empty_entry_FilterOut v : no_empty_entry (FilterOut v).
Proof.
  induction v as [| | | |l IH|d IH] using value_ind'; try exact I.
  - rewrite FilterOut_list.
    destruct (forallb in_empties (map FilterOut l)); [exact I|].
    simpl. by apply FilterOut_no_empty_entry_list.
  - change (FilterOut (VDict d)) with
      (VDict (omap (λ v, let v' := FilterOut v in
                         if negb (in_empties v') then Some v' else None) d)).
    simpl. split.
    + intros k v Hk. rewrite lookup_omap in Hk.
      destruct (d !! k) as [x|]; simpl in Hk; [|done].
      destruct (in_empties (FilterOut x)) eqn:E; simpl in Hk; [done|].
      by injection Hk as <-.
    + intros k p Hk. rewrite lookup_fmap, lookup_omap in Hk.
      destruct (d !! k) as [x|] eqn:Hx; simpl in Hk; [|done].
      destruct (in_empties (FilterOut x)) eqn:E; simpl in Hk; [done|].
      injection Hk as <-. by apply (IH k x).
Qed.

(** X1.  Filtering a second time changes nothing. *)
Theorem FilterOut_idempotent v : FilterOut (FilterOut v) = FilterOut v.
Proof. apply FilterOut_FilterOut. Qed.

(** X2.  In what [FilterOut] returns no mapping, at any depth, has an
    entry whose value is [None], [False], zero, an empty string, an
    empty list or an empty mapping. *)
Theorem FilterOut_no_empty_entry v : no_empty_entry (FilterOut v).
Proof. apply no_empty_entry_FilterOut. Qed.

(** X3.  When the [filter] argument is on, what [content] hands to the
    serialiser has no empty entry at any depth, and filtering it again
    would change nothing; this holds for a plain rendering and for a
    selection alike. *)
Theorem content_filter_on self req (v : string) rest doc :
  args req !! "filter" = Some (v :: rest) →
  Py.lower v = "1" ∨ Py.lower v = "true" →
  content self req = Ok doc →
  no_empty_entry doc ∧ FilterOut doc = doc.
Proof.
  intros Hf Hv. unfold content.
  destruct (RequestArgToBool req "as_text" false) as [as_text|]; [|done].
  cbn [mbind result_bind].
  assert (RequestArgToBool req "filter" as_text = Ok true) as ->.
  { unfold RequestArgToBool, RequestArg. rewrite Hf. simpl.
    destruct Hv as [-> | ->]; reflexivity. }
  cbn [mbind result_bind].
  destruct (RequestArgToBool req "compact" (negb as_text)); [|done].
  cbn [mbind result_bind].
  destruct (match args req !! "select" with
            | Some select => VDict <$> select_data self req select
            | None => asDict self req
            end) as [data|]; [|done].
  cbn [mbind result_bind]. intros [= <-].
  split; [apply no_empty_entry_FilterOut | apply FilterOut_FilterOut].
Qed.

Lemma content_filter_on_witness :
  no_empty_entry (VDict {[ KStr "number" := VInt 5 ]}).
Proof.
  refine (proj1 (content_filter_on (BuildJsonResource (Sample.build 5) ∅)
                   {| args := {[ "filter" := ["True"] ]}; prepath := []; postpath := [];
                      getCodebasesArg := ∅; getResultsArg := None |}
                   "True" [] (VDict {[ KStr "number" := VInt 5 ]}) _ _ _)).
  - reflexivity.
  - right. reflexivity.
  - vm_compute. reflexivity.
Defined.

(** ** Resolution: what it raises and what it changes *)

Lemma AllBuildsJsonResource_getChild_total self b path :
  ∃ child, AllBuildsJsonResource_getChild self b path = Ok (self, child).
Proof.
  unfold AllBuildsJsonResource_getChild, JsonResource_getChild.
  destruct (is_int path) eqn:Hint.
  - assert (∃ n, int path = Ok n) as [n ->].
    { destruct path as [s|n]; [|by eexists]. simpl in *.
      destruct (IS_INT_int s Hint) as [n ->]. by eexists. }
    simpl. destruct (getBuild b n); by eexists.
  - destruct path as [s|n]; [|by eexists].
    destruct (Py.contains "<" s); by eexists.
Qed.

(** X4.  Resolving a segment at a builds node or at its [_all] child
    never raises and never changes that node, whatever the segment, a
    string or an integer.  Hence no walk that starts at a builds node
    changes it. *)
Theorem builds_resolution_total b req :
  (∀ path, ∃ child, getChildWithDefault (AllBuildsJsonResource b) path req
                    = Ok (AllBuildsJsonResource b, child)) ∧
  (∀ path, ∃ child, getChildWithDefault (BuildsJsonResource b) path req
                    = Ok (BuildsJsonResource b, child)) ∧
  (∀ postpath_ self' reached,
     resolve (BuildsJsonResource b) req postpath_ = Ok (self', reached) →
     self' = BuildsJsonResource b) ∧
  (∀ postpath_ self' reached,
     resolve (AllBuildsJsonResource b) req postpath_ = Ok (self', reached) →
     self' = AllBuildsJsonResource b).
Proof.
  assert (∀ path req, ∃ child, getChildWithDefault (AllBuildsJsonResource b) path req
                        = Ok (AllBuildsJsonResource b, child)) as Hall.
  { intros path req'. unfold getChildWithDefault, getChildWithDefault_base.
    destruct (AllBuildsJsonResource_getChild_total (AllBuildsJsonResource b) b path)
      as [child ->].
    repeat (match goal with
            | |- context [if ?c then _ else _] => destruct c
            | |- context [match ?p with PStr _ => _ | PInt _ => _ end] => destruct p
            | |- context [match ?o with Some _ => _ | None => _ end] => destruct o
            end); by eexists. }
  assert (∀ r, (r = BuildsJsonResource b ∨ r = AllBuildsJsonResource b) →
            ∀ postpath_ self' reached,
              resolve r req postpath_ = Ok (self', reached) → self' = r) as Hres.
  { intros r Hr [|pe rest] self' reached H; [by injection H as <- <-|].
    cbn [resolve] in H.
    destruct (getChildWithDefault r (PStr pe) _) as [[self_a next]|] eqn:Hg; [|done].
    apply getChildWithDefault_self in Hg as ->; [|by destruct Hr as [-> | ->]].
    cbn [mbind result_bind] in H.
    destruct (resolve next _ rest) as [[next' r']|]; [|done].
    cbn [mbind result_bind] in H. injection H as <- <-.
    by destruct Hr as [-> | ->]. }
  split; [intros path; apply Hall|]. split.
  - intros path. unfold getChildWithDefault, getChildWithDefault_base.
    destruct (AllBuildsJsonResource_getChild_total (AllBuildsJsonResource b) b path)
      as [child ->].
    repeat (match goal with
            | |- context [if ?c then _ else _] => destruct c
            | |- context [match ?p with PStr _ => _ | PInt _ => _ end] => destruct p
            | |- context [match ?o with Some _ => _ | None => _ end] => destruct o
            end; simpl); by eexists.
  - split; apply Hres; auto.
Qed.

Lemma builds_resolution_total_witness :
  BuildsJsonResource Sample.builder = BuildsJsonResource Sample.builder.
Proof.
  exact (proj1 (proj2 (proj2 (builds_resolution_total Sample.builder Sample.request0)))
           ["-1"; "steps"; "0"] (BuildsJsonResource Sample.builder)
           (BuildStepJsonResource Sample.compile) eq_refl).
Defined.

(** ** The steps of a build *)

Lemma getChildWithDefault_BuildSteps bs steps (s : string) req :
  s ≠ "help" → ¬ (s = "" ∧ postpath req = []) →
  children (BuildStepsJsonResource bs steps) !! s = None →
  getChildWithDefault (BuildStepsJsonResource bs steps) (PStr s) req
  = BuildStepsJsonResource_getChild (BuildStepsJsonResource bs steps) bs steps (PStr s).
Proof.
  intros Hhelp Hempty Hstatic. unfold getChildWithDefault, getChildWithDefault_base.
  destruct (bool_decide (PStr s = PStr "") && bool_decide (postpath req = [])) eqn:E.
  { apply andb_prop in E as [E1 E2]. apply bool_decide_eq_true in E1, E2.
    destruct Hempty. split; congruence. }
  rewrite (bool_decide_eq_false_2 (PStr s = PStr "help")) by congruence.
  simpl andb. cbv iota. by rewrite Hstatic.
Qed.

(** X5.  An integer segment under [steps] that is not stored yet is an
    index into the build's steps as Python indexes a list: with [len]
    steps, an [n] in [-len, len) resolves to step [n], counted from the
    end when negative, and any other [n] raises [IndexError] (it is
    not reported as not found). *)
Theorem steps_index_bounds bs steps (s : string) req n :
  _IS_INT s = true →
  Py.int s = Some n →
  children (BuildStepsJsonResource bs steps) !! s = None →
  let len := Z.of_nat (length (getSteps bs)) in
  ((- len ≤ n < len)%Z →
   ∃ st, getSteps bs !! Z.to_nat (if (n <? 0)%Z then len + n else n) = Some st ∧
         snd <$> getChildWithDefault (BuildStepsJsonResource bs steps) (PStr s) req
         = Ok (BuildStepJsonResource st)) ∧
  (¬ (- len ≤ n < len)%Z →
   getChildWithDefault (BuildStepsJsonResource bs steps) (PStr s) req = Raise IndexError).
Proof.
  intros Hint Hn Hstatic len.
  destruct (IS_INT_not_name _ Hint) as (He & Hh & _).
  rewrite getChildWithDefault_BuildSteps by tauto.
  unfold BuildStepsJsonResource_getChild. simpl is_int. rewrite Hint.
  simpl int. rewrite Hn. cbn [mbind result_bind]. unfold getitem. fold len.
  split.
  - intros Hrange.
    assert (((- len <=? n) && (n <? len))%Z = true) as ->.
    { apply andb_true_intro. split; [apply Z.leb_le|apply Z.ltb_lt]; lia. }
    set (pos := Z.to_nat (if (n <? 0)%Z then len + n else n)).
    assert (pos < length (getSteps bs))%nat as Hpos.
    { unfold pos. destruct (n <? 0)%Z eqn:E;
        [apply Z.ltb_lt in E|apply Z.ltb_ge in E]; lia. }
    destruct (lookup_lt_is_Some_2 _ _ Hpos) as [st Hst].
    exists st. split; [done|]. by rewrite Hst.
  - intros Hrange.
    assert (((- len <=? n) && (n <? len))%Z = false) as ->; [|done].
    apply andb_false_iff.
    destruct (Z.leb_spec (- len) n); [|by left].
    right. apply Z.ltb_ge. lia.
Qed.

Lemma steps_index_bounds_witness :
  getChildWithDefault (BuildStepsJsonResource (Sample.build 5) ∅) (PStr "99") Sample.request0
  = Raise IndexError.
Proof.
  refine (proj2 (steps_index_bounds (Sample.build 5) ∅ "99" Sample.request0 99
                   eq_refl eq_refl eq_refl) _).
  simpl. lia.
Defined.

Lemma steps_dict_get_None path steps i :
  steps_dict_get path steps i = None ↔ Forall (λ st, getName st ≠ path) steps.
Proof.
  revert i. induction steps as [|step rest IH]; intros i; simpl.
  { split; [constructor|done]. }
  destruct (steps_dict_get path rest (S i)) as [found|] eqn:E.
  - split; [done|]. intros H. apply Forall_cons in H as [_ H].
    apply (IH (S i)) in H. congruence.
  - case_bool_decide as Hn.
    + split; [done|]. intros H. by apply Forall_cons in H as [H _].
    + split; [|done]. intros _. constructor; [done|]. by apply (IH (S i)).
Qed.

Lemma steps_dict_get_last path steps i j st :
  steps_dict_get path steps i = Some (j, st) →
  ∀ k st', (j - i < k)%nat → steps !! k = Some st' → getName st' ≠ path.
Proof.
  revert i. induction steps as [|step rest IH]; intros i H k st' Hk Hl; [done|].
  simpl in H. destruct (steps_dict_get path rest (S i)) as [[j' st'']|] eqn:E.
  - injection H as -> ->. destruct k as [|k]; [lia|]. simpl in Hl.
    pose proof (steps_dict_get_Some _ _ _ _ _ E) as (_ & Hle & _).
    eapply (IH (S i)); [done| |done]. lia.
  - case_bool_decide as Hn; [|done]. injection H as <- <-.
    destruct k as [|k]; [lia|]. simpl in Hl.
    apply steps_dict_get_None in E.
    rewrite Forall_forall in E. apply E. by eapply list_elem_of_lookup_2.
Qed.

(** X6.  A segment under [steps] that is not an integer, is not stored
    yet and is not ['help'] is looked up among the names of the
    build's steps.  If no step has that name the segment is not found
    and nothing is stored.  Otherwise it resolves to the last step of
    that name. *)
Theorem steps_name_lookup bs steps (s : string) req :
  _IS_INT s = false → s ≠ "help" → ¬ (s = "" ∧ postpath req = []) →
  children (BuildStepsJsonResource bs steps) !! s = None →
  (Forall (λ st, getName st ≠ s) (getSteps bs) ∧
   getChildWithDefault (BuildStepsJsonResource bs steps) (PStr s) req
   = Ok (BuildStepsJsonResource bs steps, NoResource)) ∨
  (∃ index st,
     getSteps bs !! index = Some st ∧ getName st = s ∧
     (∀ k st', (index < k)%nat → getSteps bs !! k = Some st' → getName st' ≠ s) ∧
     snd <$> getChildWithDefault (BuildStepsJsonResource bs steps) (PStr s) req
     = Ok (BuildStepJsonResource st)).
Proof.
  intros Hint Hhelp Hempty Hstatic.
  rewrite getChildWithDefault_BuildSteps by done.
  unfold BuildStepsJsonResource_getChild. simpl is_int. rewrite Hint.
  cbn [mbind result_bind].
  destruct (steps_dict_get s (getSteps bs) 0) as [[index st]|] eqn:E.
  - right. exists index, st.
    pose proof (steps_dict_get_Some _ _ _ _ _ E) as (Hn & _ & Hl).
    rewrite Nat.sub_0_r in Hl. split; [done|]. split; [done|]. split; [|done].
    intros k st' Hk. apply (steps_dict_get_last _ _ _ _ _ E). lia.
  - left. split; [|done]. by apply (steps_dict_get_None s (getSteps bs) 0).
Qed.

Lemma steps_name_lookup_witness :
  (Forall (λ st, getName st ≠ "deploy") (getSteps (Sample.build 5)) ∧
   getChildWithDefault (BuildStepsJsonResource (Sample.build 5) ∅) (PStr "deploy")
     Sample.request0
   = Ok (BuildStepsJsonResource (Sample.build 5) ∅, NoResource)) ∨
  (∃ index st,
     getSteps (Sample.build 5) !! index = Some st ∧ getName st = "deploy" ∧
     (∀ k st', (index < k)%nat → getSteps (Sample.build 5) !! k = Some st' →
               getName st' ≠ "deploy") ∧
     snd <$> getChildWithDefault (BuildStepsJsonResource (Sample.build 5) ∅)
               (PStr "deploy") Sample.request0
     = Ok (BuildStepJsonResource st)).
Proof.
  apply steps_name_lookup.
  - reflexivity.
  - discriminate.
  - intros [? _]. discriminate.
  - reflexivity.
Defined.

Lemma lookup_imap_steps (f : step_status → value) (steps : list step_status) (start : nat) k :
  (list_to_map (imap (λ index step, (KInt (Z.of_nat (start + index)), f step)) steps)
     : gmap key value) !! k
  = match k with
    | KInt i => if (Z.of_nat start <=? i)%Z
                then f <$> steps !! (Z.to_nat i - start)%nat else None
    | _ => None
    end.
Proof.
  revert start. induction steps as [|st steps IH]; intros start.
  - simpl. rewrite lookup_empty. destruct k as [|i|]; try done.
    by destruct (Z.of_nat start <=? i)%Z.
  - cbn [imap list_to_map fst snd].
    assert (imap ((λ index step, (KInt (Z.of_nat (start + index)), f step)) ∘ S) steps
            = imap (λ index step, (KInt (Z.of_nat (S start + index)), f step)) steps) as ->.
    { apply imap_ext. intros i x _. simpl. do 3 f_equal. lia. }
    rewrite Nat.add_0_r, list_to_map_cons.
    destruct (decide (KInt (Z.of_nat start) = k)) as [<-|Hne].
    + rewrite lookup_insert_eq. rewrite Z.leb_refl, Nat2Z.id, Nat.sub_diag. done.
    + rewrite lookup_insert_ne by done. rewrite IH.
      destruct k as [|i|]; try done.
      destruct (Z.leb_spec (Z.of_nat start) i) as [Hle|Hlt].
      * assert (Z.of_nat start ≠ i) by congruence.
        assert ((Z.of_nat (S start) <=? i)%Z = true) as -> by (apply Z.leb_le; lia).
        replace (Z.to_nat i - start)%nat with (S (Z.to_nat i - S start)) by lia.
        done.
      * assert ((Z.of_nat (S start) <=? i)%Z = false) as -> by (apply Z.leb_gt; lia).
        done.
Qed.

(** X7.  The node of a build's steps renders a mapping whose keys are
    the step indices [0 .. len-1], each with that step's rendering;
    it has no key by step name and no other key, whatever children
    resolution has stored. *)
Theorem steps_rendering bs steps req :
  ∃ d, asDict (BuildStepsJsonResource bs steps) req = Ok (VDict d) ∧
       (∀ i : nat, d !! KInt (Z.of_nat i)
                   = (λ st, step_asDict st (Some req)) <$> getSteps bs !! i) ∧
       (∀ i, (i < 0)%Z → d !! KInt i = None) ∧
       (∀ s, d !! KStr s = None) ∧
       d !! KNone = None.
Proof.
  eexists. split; [reflexivity|].
  pose proof (lookup_imap_steps (λ st, step_asDict st (Some req)) (getSteps bs) 0) as H.
  simpl in H.
  split; [|split; [|split]].
  - intros i. rewrite H. rewrite (proj2 (Z.leb_le 0 _)) by lia.
    by rewrite Nat2Z.id, Nat.sub_0_r.
  - intros i Hi. rewrite H. by rewrite (proj2 (Z.leb_gt 0 _)).
  - intros s. by rewrite H.
  - by rewrite H.
Qed.

(** ** Selections that address different children *)


Lemma store_child_no_memo self pe child :
  has_step_memo self = false → store_child self pe child = self.
Proof. by destruct self. Qed.

Lemma resolve_no_memo self req segs self' reached :
  has_step_memo self = false →
  resolve self req segs = Ok (self', reached) → self' = self.
Proof.
  intros Hm H. destruct segs as [|pe rest]; [by injection H as <- <-|].
  cbn [resolve] in H.
  destruct (getChildWithDefault self (PStr pe) _) as [[self_a next]|] eqn:Hg; [|done].
  apply getChildWithDefault_self in Hg as ->; [|by intros ?? ->].
  cbn [mbind result_bind] in H.
  destruct (resolve next _ rest) as [[next' r']|]; [|done].
  cbn [mbind result_bind] in H. injection H as <- <-.
  by apply store_child_no_memo.
Qed.

(** What an item with a first segment does, whatever the document. *)
Lemma select_item_insert req self data item s self' data' :
  first_segment item = Some s →
  select_item req (self, data) item = Ok (self', data') →
  ∃ v, ∀ data2, select_item req (self, data2) item = Ok (self', <[KStr s := v]> data2).
Proof.
  unfold first_segment. intros Hs Hitem.
  destruct (segments item) as [|s' rest] eqn:Hsegs; [done|]. injection Hs as ->.
  rewrite select_item_spec, Hsegs in Hitem.
  destruct (resolve self req (s :: rest)) as [[self1 reached]|e] eqn:Hres; [|done].
  simpl in Hitem.
  destruct (child_dict_of reached _) as [child_dict|e] eqn:Hcd; [|done].
  simpl in Hitem.
  destruct (dict_update ∅ child_dict) as [leaf|e] eqn:Hup; [|done].
  simpl in Hitem. injection Hitem as <- <-.
  exists (VDict (nest rest leaf)). intros data2.
  rewrite select_item_spec, Hsegs, Hres. simpl.
  rewrite Hcd. simpl. by rewrite Hup.
Qed.

Lemma select_item_no_memo req self data item self' data' :
  has_step_memo self = false →
  select_item req (self, data) item = Ok (self', data') → self' = self.
Proof.
  intros Hm Hitem. rewrite select_item_spec in Hitem.
  destruct (resolve self req (segments item)) as [[self1 reached]|e] eqn:Hres; [|done].
  apply resolve_no_memo in Hres as ->; [|done].
  simpl in Hitem.
  destruct (child_dict_of reached _) as [child_dict|e]; [|done]. simpl in Hitem.
  destruct (segments item).
  - destruct (dict_update data child_dict); [|done]. by injection Hitem as <- <-.
  - destruct (dict_update ∅ child_dict); [|done]. by injection Hitem as <- <-.
Qed.

Lemma for_each_app {A S} (body : S → A → result S) l1 l2 s :
  for_each body s (l1 ++ l2) = s' ← for_each body s l1; for_each body s' l2.
Proof.
  revert s. induction l1 as [|x l1 IH]; intros s; [done|].
  cbn [for_each app]. destruct (body s x); [|done]. apply IH.
Qed.

Lemma select_items_no_memo req self items : ∀ data self' data',
  has_step_memo self = false →
  for_each (select_item req) (self, data) items = Ok (self', data') → self' = self.
Proof.
  induction items as [|item items IH]; intros data self' data' Hm H.
  - by injection H as <- <-.
  - cbn [for_each] in H.
    destruct (select_item req (self, data) item) as [[self1 d1]|] eqn:Hitem; [|done].
    apply select_item_no_memo in Hitem as ->; [|done]. by eapply IH.
Qed.

(** Items with different first segments can change places. *)
Lemma select_items_perm req self items items' :
  has_step_memo self = false →
  Permutation items items' →
  NoDup (map first_segment items) →
  Forall (λ item, is_Some (first_segment item)) items →
  ∀ data r,
    for_each (select_item req) (self, data) items = Ok r →
    for_each (select_item req) (self, data) items' = Ok r.
Proof.
  intros Hm Hperm.
  induction Hperm as [|x l l' Hperm IH|x y l|l l' l'' Hp1 IH1 Hp2 IH2];
    intros Hnd Hall data r H.
  - done.
  - cbn [for_each] in *.
    destruct (select_item req (self, data) x) as [[self1 d1]|] eqn:Hitem; [|done].
    assert (self1 = self) as -> by by eapply select_item_no_memo.
    cbn [mbind result_bind] in *.
    apply NoDup_cons in Hnd as [_ Hnd]. apply Forall_cons in Hall as [_ Hall].
    by apply IH.
  - cbn [for_each] in *. cbn [map] in Hnd.
    apply Forall_cons in Hall as [[sy Hy] Hall]. apply Forall_cons in Hall as [[sx Hx] Hall].
    apply NoDup_cons in Hnd as [Hne _].
    assert (sy ≠ sx) as Hsne.
    { intros ->. apply Hne. rewrite Hy, Hx. left. }
    destruct (select_item req (self, data) y) as [[self1 d1]|] eqn:Hiy; [|done].
    assert (self1 = self) as -> by by eapply select_item_no_memo.
    destruct (select_item_insert _ _ _ _ _ _ _ Hy Hiy) as [vy Hvy].
    cbn [mbind result_bind] in H.
    destruct (select_item req (self, d1) x) as [[self1 d2]|] eqn:Hix; [|done].
    assert (self1 = self) as -> by by eapply select_item_no_memo.
    destruct (select_item_insert _ _ _ _ _ _ _ Hx Hix) as [vx Hvx].
    cbn [mbind result_bind] in H.
    rewrite Hvy in Hiy. injection Hiy as <-. rewrite Hvx in Hix. injection Hix as <-.
    rewrite Hvx. cbn [mbind result_bind]. rewrite Hvy. cbn [mbind result_bind].
    rewrite insert_insert_ne; [done|]. by intros [= ->].
  - apply IH2.
    + apply NoDup_ListNoDup. eapply Permutation_NoDup; [by apply Permutation_map|].
      by apply NoDup_ListNoDup.
    + by rewrite <- Hp1.
    + by apply IH1.
Qed.

Lemma first_segment_strip item : first_segment (Py.strip "/" item) = first_segment item.
Proof. unfold first_segment. by rewrite segments_strip. Qed.

Lemma sorted_perm_le {A} (le : A → A → bool) l : Permutation (Py.sorted le l) l.
Proof.
  induction l as [|x l IH]; [done|]. unfold Py.sorted in *. cbn [foldr].
  etrans; [|by apply Permutation_cons, IH].
  generalize (foldr (Py.insert_sorted le) [] l). clear. intros l.
  induction l as [|y l IH]; [done|]. cbn [Py.insert_sorted].
  destruct (le x y); [done|]. rewrite IH. apply perm_swap.
Qed.

Lemma sort_select_perm select : Permutation (sort_select select) select.
Proof. apply sorted_perm_le. Qed.

Lemma select_data_perm self req select select' d :
  has_step_memo self = false →
  Forall (λ item, is_Some (first_segment item)) select →
  NoDup (map first_segment select) →
  Permutation select select' →
  select_data self req select = Ok d → select_data self req select' = Ok d.
Proof.
  intros Hm Hall Hnd Hperm. rewrite !select_data_for_each.
  set (req0 := set_args req (delete "select" (args req))).
  destruct (for_each (select_item req0) (self, ∅) (sort_select (map (Py.strip "/") select)))
    as [r|] eqn:H; [|done].
  intros [= <-].
  erewrite (select_items_perm req0 self _ (sort_select (map (Py.strip "/") select')));
    [done|done| | | |exact H].
  - rewrite !sort_select_perm. by apply Permutation_map.
  - rewrite sort_select_perm. rewrite map_map.
    erewrite map_ext; [exact Hnd|]. intros item. apply first_segment_strip.
  - rewrite sort_select_perm. apply Forall_forall. intros x Hx.
    apply list_elem_of_In, in_map_iff in Hx as (item & <- & Hin).
    rewrite first_segment_strip. rewrite Forall_forall in Hall.
    by apply Hall, list_elem_of_In.
Qed.

Lemma nonempty_first_segment select :
  Forall (λ item, segments item ≠ []) select →
  Forall (λ item, is_Some (first_segment item)) select.
Proof.
  intros H. eapply Forall_impl; [exact H|]. intros item. unfold first_segment.
  destruct (segments item); [done|]. by eexists.
Qed.

(** X8.  At a node that resolution does not change (every node but a
    build and its steps container), [select] entries whose first
    segments are pairwise different compose to the same document in
    whatever order they are given. *)
Theorem select_order_irrelevant self req select select' d :
  has_step_memo self = false →
  Forall (λ item, segments item ≠ []) select →
  NoDup (map first_segment select) →
  Permutation select select' →
  select_data self req select = Ok d → select_data self req select' = Ok d.
Proof.
  intros Hm Hall. apply select_data_perm; [done|]. by apply nonempty_first_segment.
Qed.

Lemma select_order_irrelevant_witness :
  select_data (BuildsJsonResource Sample.builder) Sample.request0 ["7"; "-1/steps"; "-3"]
  = Ok (<[KStr "7" := VDict {[ KStr "number" := VInt 7 ]}]>
          (<[KStr "-1" :=
               VDict {[ KStr "steps" :=
                          VDict (<[KInt 0 := VDict {[ KStr "name" := VStr "compile" ]}]>
                                   {[ KInt 1 := VDict {[ KStr "name" := VStr "unit_tests" ]} ]}) ]}]>
             {[ KStr "-3" := VDict {[ KStr "number" := VInt 8 ]} ]})).
Proof.
  apply (select_order_irrelevant (BuildsJsonResource Sample.builder) Sample.request0
           ["-1/steps"; "-3"; "7"] ["7"; "-1/steps"; "-3"]).
  - reflexivity.
  - repeat constructor; discriminate.
  - apply (bool_decide_unpack _). vm_compute. exact I.
  - apply Permutation_sym, (Permutation_cons_app ["-1/steps"; "-3"] [] "7"). reflexivity.
  - vm_compute. reflexivity.
Defined.

Lemma select_items_keys req items : ∀ self data self' data',
  Forall (λ item, is_Some (first_segment item)) items →
  for_each (select_item req) (self, data) items = Ok (self', data') →
  ∀ k, is_Some (data' !! k) →
       is_Some (data !! k)
       ∨ ∃ item s, item ∈ items ∧ first_segment item = Some s ∧ k = KStr s.
Proof.
  induction items as [|item items IH]; intros self data self' data' Hall H k Hk.
  - injection H as <- <-. by left.
  - cbn [for_each] in H. apply Forall_cons in Hall as [[s Hs] Hall].
    destruct (select_item req (self, data) item) as [[self1 d1]|] eqn:Hitem; [|done].
    cbn [mbind result_bind] in H.
    destruct (IH _ _ _ _ Hall H k Hk) as [Hd1|(item' & s' & Hin & Hs' & ->)].
    + destruct (select_item_insert _ _ _ _ _ _ _ Hs Hitem) as [v Hv].
      rewrite Hv in Hitem. injection Hitem as <-.
      destruct (decide (k = KStr s)) as [->|Hne].
      * right. exists item, s. split; [left|done].
      * left. by rewrite lookup_insert_ne in Hd1.
    + right. exists item', s'. split; [by right|done].
Qed.

(** X9.  At a node that resolution does not change, when the first
    segments of the [select] entries are pairwise different, each entry
    puts under its first segment what it puts there when it is selected
    alone, and the document has no other key. *)
Theorem select_independent self req select d :
  has_step_memo self = false →
  Forall (λ item, segments item ≠ []) select →
  NoDup (map first_segment select) →
  select_data self req select = Ok d →
  (∀ item s, item ∈ select → first_segment item = Some s →
     ∃ v, select_data self req [item] = Ok {[ KStr s := v ]} ∧ d !! KStr s = Some v) ∧
  (∀ k, is_Some (d !! k) →
     ∃ item s, item ∈ select ∧ first_segment item = Some s ∧ k = KStr s).
Proof.
  intros Hm Hne Hnd Hd. apply nonempty_first_segment in Hne.
  rewrite select_data_for_each in Hd.
  set (req0 := set_args req (delete "select" (args req))) in *.
  set (l := sort_select (map (Py.strip "/") select)) in *.
  destruct (for_each (select_item req0) (self, ∅) l) as [[self_r d_r]|] eqn:H; [|done].
  injection Hd as ->.
  assert (Permutation l (map (Py.strip "/") select)) as Hl by apply sort_select_perm.
  assert (Forall (λ item, is_Some (first_segment item)) l) as Hall.
  { rewrite Hl. apply Forall_forall. intros x Hx.
    apply list_elem_of_In, in_map_iff in Hx as (item & <- & Hin).
    rewrite first_segment_strip. rewrite Forall_forall in Hne.
    by apply Hne, list_elem_of_In. }
  assert (NoDup (map first_segment l)) as Hndl.
  { rewrite Hl, map_map. erewrite map_ext; [exact Hnd|].
    intros item. apply first_segment_strip. }
  split.
  - intros item s Hin Hs.
    assert (Py.strip "/" item ∈ l) as Hx.
    { rewrite Hl. apply list_elem_of_In, in_map, list_elem_of_In, Hin. }
    apply elem_of_Permutation in Hx as [k Hk].
    assert (Permutation l (k ++ [Py.strip "/" item])) as Hk'.
    { rewrite Hk. apply Permutation_cons_append. }
    pose proof (select_items_perm req0 self l _ Hm Hk' Hndl Hall ∅ _ H) as H'.
    rewrite for_each_app in H'.
    destruct (for_each (select_item req0) (self, ∅) k) as [[self1 d1]|] eqn:H1; [|done].
    apply select_items_no_memo in H1 as ->; [|done].
    cbn [mbind result_bind for_each] in H'.
    destruct (select_item req0 (self, d1) (Py.strip "/" item)) as [[self2 d2]|] eqn:H2;
      [|done].
    cbn [mbind result_bind] in H'. injection H' as -> ->.
    rewrite <- first_segment_strip in Hs.
    destruct (select_item_insert _ _ _ _ _ _ _ Hs H2) as [v Hv].
    rewrite Hv in H2. injection H2 as <-.
    exists v. split; [|by rewrite lookup_insert_eq].
    rewrite select_data_for_each. fold req0. cbn [map].
    change (sort_select [Py.strip "/" item]) with [Py.strip "/" item].
    cbn [for_each]. rewrite Hv. cbn [mbind result_bind fmap result_fmap snd].
    by rewrite insert_empty.
  - intros k Hk.
    destruct (select_items_keys req0 l _ _ _ _ Hall H k Hk) as [He|(x & s & Hx & Hs & ->)].
    { rewrite lookup_empty in He. by destruct He. }
    rewrite Hl in Hx. apply list_elem_of_In, in_map_iff in Hx as (item & <- & Hin).
    rewrite first_segment_strip in Hs.
    exists item, s. split; [by apply list_elem_of_In|done].
Qed.

Lemma select_independent_witness :
  ∃ v, select_data (BuildsJsonResource Sample.builder) Sample.request0 ["-1/steps"]
       = Ok {[ KStr "-1" := v ]}.
Proof.
  destruct (select_independent (BuildsJsonResource Sample.builder) Sample.request0
              ["7"; "-1/steps"; "-3"]
              (<[KStr "7" := VDict {[ KStr "number" := VInt 7 ]}]>
                 (<[KStr "-1" :=
                      VDict {[ KStr "steps" :=
                                 VDict (<[KInt 0 := VDict {[ KStr "name" := VStr "compile" ]}]>
                                          {[ KInt 1 := VDict {[ KStr "name" := VStr "unit_tests" ]} ]}) ]}]>
                    {[ KStr "-3" := VDict {[ KStr "number" := VInt 8 ]} ]})))
    as [Hitem _].
  - reflexivity.
  - repeat constructor; discriminate.
  - apply (bool_decide_unpack _). vm_compute. exact I.
  - vm_compute. reflexivity.
  - destruct (Hitem "-1/steps" "-1") as (v & Hv & _).
    + apply (bool_decide_unpack _). vm_compute. exact I.
    + reflexivity.
    + exists v. exact Hv.
Defined.

(** ** Selecting a node that renders a list *)

Lemma asDict_Ok_hasattr r req v : asDict r req = Ok v → hasattr_asDict r = true.
Proof. by destruct r. Qed.

(** X10.  [node.update] takes a rendering that is a list for a sequence
    of key and value pairs.  So selecting a node that renders a list of
    mappings, as a builds node and a last-N node do, raises
    [ValueError] unless the first mapping has exactly two keys; an
    empty list adds nothing to the item's slot. *)
Theorem select_list_rendering self req data item self' reached l :
  resolve self req (segments item) = Ok (self', reached) →
  asDict reached (set_paths req (prepath req ++ segments item) []) = Ok (VList l) →
  (l = [] →
   select_item req (self, data) item
   = Ok (self', match segments item with
                | [] => data
                | s :: rest => <[KStr s := VDict (nest rest ∅)]> data
                end)) ∧
  (∀ m others, l = VDict m :: others → size m ≠ 2%nat →
     select_item req (self, data) item = Raise ValueError).
Proof.
  intros Hres Hd. pose proof (asDict_Ok_hasattr _ _ _ Hd) as Hattr.
  rewrite select_item_spec, Hres. cbn [mbind result_bind].
  unfold child_dict_of. rewrite Hattr, Hd. cbn [mbind result_bind].
  split.
  - intros ->. by destruct (segments item).
  - intros m others -> Hm.
    assert (∀ node, dict_update node (VList (VDict m :: others)) = Raise ValueError) as Hup.
    { intros node. unfold dict_update. cbn [for_each pair_of].
      rewrite <- length_map_to_list in Hm.
      destruct (map_to_list m) as [|[k1 v1] [|[k2 v2] [|? ?]]]; try done. }
    rewrite !Hup. by destruct (segments item).
Qed.

Lemma select_list_rendering_witness :
  select_item Sample.request0 (BuildsJsonResource Sample.builder, ∅) "" = Raise ValueError.
Proof.
  refine (proj2 (select_list_rendering (BuildsJsonResource Sample.builder) Sample.request0 ∅
                   "" (BuildsJsonResource Sample.builder) (BuildsJsonResource Sample.builder)
                   (map (λ b, build_asDict b None) (map Sample.build (seqZ 1 10))) _ _)
                 {[ KStr "number" := VInt 1 ]}
                 (map (λ b, build_asDict b None) (map Sample.build (seqZ 2 9))) _ _).
  - reflexivity.
  - reflexivity.
  - reflexivity.
  - vm_compute. lia.
Defined.

(** X11.  A [select] entry counts by its non-empty segments only:
    leading, trailing and doubled slashes make no difference. *)
Theorem select_slashes self req item item' :
  segments item = segments item' →
  select_data self req [item] = select_data self req [item'].
Proof.
  intros Hs. rewrite !select_data_for_each. cbn [map].
  change (sort_select [Py.strip "/" item]) with [Py.strip "/" item].
  change (sort_select [Py.strip "/" item']) with [Py.strip "/" item'].
  cbn [for_each]. rewrite !select_item_spec, !segments_strip, Hs. done.
Qed.

Lemma select_slashes_witness :
  select_data (BuildsJsonResource Sample.builder) Sample.request0 ["/-1//steps/"]
  = select_data (BuildsJsonResource Sample.builder) Sample.request0 ["-1/steps"].
Proof.
  apply (select_slashes (BuildsJsonResource Sample.builder) Sample.request0
           "/-1//steps/" "-1/steps").
  vm_compute. reflexivity.
Defined.

(** ** What the rendering of [_all] raises *)

(** X12.  Rendering the [_all] node raises only over the [max]
    argument: [IndexError] when the argument is there without a value,
    [ValueError] when its first value is not an integer literal.  The
    loop over the builds never raises. *)
Theorem all_builds_raises b req e :
  asDict (AllBuildsJsonResource b) req = Raise e ↔
  (args req !! "max" = Some [] ∧ e = IndexError)
  ∨ (∃ s others, args req !! "max" = Some (s :: others) ∧ Py.int s = None ∧ e = ValueError).
Proof.
  cbn [asDict asDict_own default]. unfold AllBuildsJsonResource_asDict. cbv zeta.
  unfold max_arg, RequestArg.
  destruct (args req !! "max") as [[|s others]|] eqn:Hmax; cbn [mbind result_bind].
  - split.
    + intros [= <-]. by left.
    + intros [[_ ->]|(s & others & [=] & _)]. done.
  - destruct (Py.int s) as [max|] eqn:Hint; cbn [mbind result_bind].
    + rewrite all_builds_loop. cbn [mbind result_bind]. split; [done|].
      intros [[[=] _]|(s' & others' & [= <- <-] & Hn & _)]. congruence.
    + split.
      * intros [= <-]. right. by exists s, others.
      * intros [[[=] _]|(s' & others' & _ & _ & ->)]. done.
  - rewrite all_builds_loop. cbn [mbind result_bind]. split; [done|].
    intros [[[=] _]|(s' & others' & [=] & _)].
Qed.

(** ** The JSONP wrapper *)

Lemma callback_tail_spec s :
  callback_tail s = true ↔
  ∃ body, Forall (λ c, callback_next c = true) (list_ascii_of_string body) ∧
          (s = body ∨ s = body +:+ String "010"%char EmptyString).
Proof.
  induction s as [|a s IH].
  - split; [|done]. intros _. exists EmptyString. split; [constructor|by left].
  - cbn [callback_tail]. destruct (callback_next a) eqn:Ha.
    + rewrite IH. split.
      * intros (body & Hb & Hs). exists (String a body). split; [by constructor|].
        destruct Hs as [-> | ->]; [by left|by right].
      * intros (body & Hb & Hs). destruct body as [|c body].
        { destruct Hs as [[=]|[= -> ->]]. done. }
        cbn [list_ascii_of_string] in Hb. apply Forall_cons in Hb as [_ Hb].
        exists body. split; [done|].
        destruct Hs as [[= _ ->]|[= _ ->]]; [by left|by right].
    + split.
      * intros [->%Ascii.eqb_eq ->%bool_decide_eq_true]%andb_prop.
        exists EmptyString. split; [constructor|by right].
      * intros (body & Hb & Hs). destruct body as [|c body].
        { by destruct Hs as [[=]|[= -> ->]]. }
        cbn [list_ascii_of_string] in Hb. apply Forall_cons in Hb as [Hc _].
        destruct Hs as [[= <- _]|[= <- _]]; congruence.
Qed.

Lemma callback_match_spec callback :
  callback_match callback = true ↔ identifier_like callback.
Proof.
  unfold identifier_like. destruct callback as [|a rest]; cbn [callback_match].
  - split; [done|]. by intros (a & body & _ & _ & [[=]|[=]]).
  - rewrite andb_true_iff, callback_tail_spec. split.
    + intros [Ha (body & Hb & Hs)]. exists a, body. split; [done|]. split; [done|].
      destruct Hs as [-> | ->]; [by left|by right].
    + intros (a' & body & Ha & Hb & Hs).
      destruct Hs as [[= <- ->]|[= <- ->]]; (split; [done|]); exists body;
        (split; [done|]); [by left|by right].
Qed.

(** X13.  The text is wrapped into a call, [callback(text);], exactly
    when the first [callback] argument looks like an identifier: a
    letter, [$] or [_], then letters, digits, [$], [.] and [_], then at
    most one line feed.  Any other callback is passed over without an
    error and the text goes out as it is, as it does without a
    callback. *)
Theorem jsonp_callback req data :
  (∀ callback others,
     args req !! "callback" = Some (callback :: others) →
     identifier_like callback →
     content_callback req data = callback +:+ "(" +:+ data +:+ ");") ∧
  (∀ callback others,
     args req !! "callback" = Some (callback :: others) →
     ¬ identifier_like callback →
     content_callback req data = data) ∧
  (args req !! "callback" = None ∨ args req !! "callback" = Some [] →
   content_callback req data = data).
Proof.
  unfold content_callback. split; [|split].
  - intros callback others -> Hid.
    apply callback_match_spec in Hid. by rewrite Hid.
  - intros callback others -> Hid.
    destruct (callback_match callback) eqn:Hm; [|done].
    by apply callback_match_spec in Hm.
  - by intros [-> | ->].
Qed.

Example jsonp_callback_samples :
  let req callback :=
    {| args := {[ "callback" := [callback] ]}; prepath := []; postpath := [];
       getCodebasesArg := ∅; getResultsArg := None |} in
  content_callback (req "jQuery.cb_1") "{}" = "jQuery.cb_1({});" ∧
  content_callback (req "alert(1)//") "{}" = "{}" ∧
  content_callback (req "1st") "{}" = "{}" ∧
  content_callback (req "") "{}" = "{}".
Proof. vm_compute. done. Qed.

(** ** The builds of a slave *)

Lemma recent_builds_loop_take slavename number req finished : ∀ n recent_builds,
  recent_builds_loop slavename number req n recent_builds finished
  = recent_builds
    ++ map (λ rb, slave_build_asDict rb req)
         (take (Z.to_nat (Z.max 1 (number - n + 1)))
            (List.filter (λ rb, bool_decide (getSlavename rb = slavename)) finished)).
Proof.
  induction finished as [|rb finished IH]; intros n recent_builds.
  - cbn. by rewrite take_nil, app_nil_r.
  - cbn [recent_builds_loop List.filter].
    destruct (bool_decide (getSlavename rb = slavename)); [|apply IH].
    destruct (Z.ltb_spec number (n + 1)) as [Hlt|Hge].
    + replace (Z.to_nat (Z.max 1 (number - n + 1))) with 1%nat by lia.
      cbn. by rewrite take_0.
    + rewrite IH, <- app_assoc. cbn [app]. f_equal.
      replace (Z.to_nat (Z.max 1 (number - n + 1)))
        with (S (Z.to_nat (Z.max 1 (number - (n + 1) + 1)))) by lia.
      done.
Qed.

(** X14.  A last-N node under a slave's builds renders the finished
    builds that ran on that slave, in the order the status yields them,
    and stops after [number + 1] of them, after one when [number] is
    below one: one build more than the number in the path. *)
Theorem slave_past_builds status number slave req :
  let finished :=
    status_generateFinishedBuilds status
      (map builder_getName (my_builders status (slave_getName slave))) in
  let on_slave :=
    List.filter (λ rb, bool_decide (getSlavename rb = slave_getName slave)) finished in
  PastBuildsJsonResource_asDict_slave status number slave req
  = map (λ rb, slave_build_asDict rb req) (take (Z.to_nat (Z.max 1 (number + 1))) on_slave)
  ∧ length (PastBuildsJsonResource_asDict_slave status number slave req)
    = Nat.min (Z.to_nat (Z.max 1 (number + 1))) (length on_slave).
Proof.
  intros finished on_slave.
  assert (PastBuildsJsonResource_asDict_slave status number slave req
          = map (λ rb, slave_build_asDict rb req)
              (take (Z.to_nat (Z.max 1 (number + 1))) on_slave)) as ->.
  { unfold PastBuildsJsonResource_asDict_slave. cbv zeta.
    rewrite recent_builds_loop_take. cbn [app]. by rewrite Z.sub_0_r. }
  split; [done|]. by rewrite length_map, length_take.
Qed.

(** ** The changes of a source stamp *)

Lemma pretty_N_go_head x : ∀ s,
  (0 < x)%N → ∃ a rest, pretty_N_go x s = String a rest ∧ Py.is_digit a = true.
Proof.
  induction (N.lt_wf_0 x) as [x _ IH]; intros s Hx.
  rewrite pretty_N_go_step by done.
  destruct (decide (0 < x `div` 10)%N) as [Hd|Hd].
  - apply IH; [|done]. by apply N.div_lt.
  - apply N.nlt_ge, N.le_0_r in Hd. rewrite Hd, pretty_N_go_0.
    eexists _, _. split; [done|].
    unfold pretty_N_char. by repeat case_match.
Qed.

Lemma str_head z :
  ∃ a rest, Py.str z = String a rest ∧ (Py.is_digit a = true ∨ a = "-"%char).
Proof.
  unfold Py.str, pretty, pretty_Z. destruct z as [|p|p].
  - eexists _, _. split; [done|]. by left.
  - unfold pretty, pretty_positive, pretty, pretty_N.
    destruct (decide (N.pos p = 0%N)); [done|].
    destruct (pretty_N_go_head (N.pos p) "") as (a & rest & -> & Ha); [lia|].
    eexists _, _. split; [done|]. by left.
  - eexists _, _. split; [done|]. by right.
Qed.

Lemma str_not_name z : Py.str z ≠ "" ∧ Py.str z ≠ "help".
Proof.
  destruct (str_head z) as (a & rest & -> & Ha).
  split; [done|]. intros [= -> _]. by destruct Ha.
Qed.

Lemma str_inj z1 z2 : Py.str z1 = Py.str z2 → z1 = z2.
Proof. apply (inj pretty). Qed.

(** One turn of the loop of [ChangesJsonResource.__init__]. *)
Lemma ChangesJsonResource_init_snoc changes c :
  ChangesJsonResource_init (changes ++ [c])
  = let children := ChangesJsonResource_init changes in
    match c_number c with
    | Some n =>
        if bool_decide (is_Some (children !! Py.str n))
        then <[Py.str (c_id c) := c]> children
        else <[Py.str n := c]> children
    | None => <[Py.str (c_id c) := c]> children
    end.
Proof. unfold ChangesJsonResource_init. by rewrite foldl_app. Qed.

Lemma ChangesJsonResource_init_keys changes : ∀ name c,
  ChangesJsonResource_init changes !! name = Some c →
  c ∈ changes ∧ (name = Py.str (c_id c) ∨ ∃ n, c_number c = Some n ∧ name = Py.str n).
Proof.
  induction changes as [|c0 changes IH] using rev_ind; intros name c H.
  - done.
  - rewrite ChangesJsonResource_init_snoc in H. cbv zeta in H.
    assert (∀ k, (k = Py.str (c_id c0) ∨ ∃ n, c_number c0 = Some n ∧ k = Py.str n) →
                 <[k := c0]> (ChangesJsonResource_init changes) !! name = Some c →
                 c ∈ changes ++ [c0]
                 ∧ (name = Py.str (c_id c) ∨ ∃ n, c_number c = Some n ∧ name = Py.str n))
      as Hins.
    { intros k Hk Hl. destruct (decide (k = name)) as [->|Hne].
      - rewrite lookup_insert_eq in Hl. injection Hl as <-.
        split; [|done]. apply elem_of_app. right. left.
      - rewrite lookup_insert_ne in Hl by done.
        destruct (IH _ _ Hl) as [Hin Hname]. split; [|done].
        apply elem_of_app. by left. }
    destruct (c_number c0) as [n|] eqn:Hn.
    + case_bool_decide; (eapply Hins; [|exact H]); [by left|right; by exists n].
    + eapply Hins; [|exact H]. by left.
Qed.

(** X15.  When the ids of the changes are pairwise different and no
    change has a number that is the id of a change, no change is lost:
    every change of the list is a child of the changes node, under its
    number or under its id, and the node has as many children as the
    list has changes. *)
Theorem changes_all_children changes :
  NoDup (map c_id changes) →
  (∀ c c', c ∈ changes → c' ∈ changes → c_number c ≠ Some (c_id c')) →
  (∀ c, c ∈ changes →
     ∃ name, children (ChangesJsonResource changes) !! name = Some (ChangeJsonResource c)
             ∧ (name = Py.str (c_id c) ∨ ∃ n, c_number c = Some n ∧ name = Py.str n)) ∧
  size (children (ChangesJsonResource changes)) = length changes.
Proof.
  cbn [children]. setoid_rewrite lookup_fmap. rewrite map_size_fmap.
  induction changes as [|c0 changes IH] using rev_ind; intros Hnd Hnum.
  - split; [by intros c ?%elem_of_nil|done].
  - rewrite map_app in Hnd. apply NoDup_app in Hnd as (Hnd & Hc0 & _).
    destruct IH as [IHc IHs]; [done|..].
    { intros c c' Hc Hc'. apply Hnum; apply elem_of_app; by left. }
    assert (c0 ∈ changes ++ [c0]) as Hin0 by (apply elem_of_app; right; left).
    assert (ChangesJsonResource_init changes !! Py.str (c_id c0) = None) as Hid.
    { destruct (ChangesJsonResource_init changes !! Py.str (c_id c0)) as [c|] eqn:Hl; [|done].
      exfalso. apply ChangesJsonResource_init_keys in Hl as [Hin [Hk|(n & Hn & Hk)]].
      - apply str_inj in Hk. apply (Hc0 (c_id c0)); [|left].
        rewrite Hk. apply list_elem_of_In, in_map, list_elem_of_In, Hin.
      - apply str_inj in Hk. subst n.
        apply (Hnum c c0); [apply elem_of_app; by left|done|done]. }
    assert (∀ k, ChangesJsonResource_init changes !! k = None →
                 (k = Py.str (c_id c0) ∨ ∃ n, c_number c0 = Some n ∧ k = Py.str n) →
                 (∀ c, c ∈ changes ++ [c0] →
                    ∃ name, ChangeJsonResource
                              <$> <[k := c0]> (ChangesJsonResource_init changes) !! name
                            = Some (ChangeJsonResource c)
                            ∧ (name = Py.str (c_id c)
                               ∨ ∃ n, c_number c = Some n ∧ name = Py.str n))
                 ∧ size (<[k := c0]> (ChangesJsonResource_init changes))
                   = length (changes ++ [c0])) as Hins.
    { intros k Hk Hform. split.
      - intros c [Hc| ->%list_elem_of_singleton]%elem_of_app.
        + destruct (IHc c Hc) as (name & Hl & Hname). exists name. split; [|done].
          rewrite lookup_insert_ne; [done|]. intros ->. by rewrite Hk in Hl.
        + exists k. by rewrite lookup_insert_eq.
      - rewrite map_size_insert_None by done. rewrite IHs, length_app. simpl. lia. }
    rewrite ChangesJsonResource_init_snoc. cbv zeta.
    destruct (c_number c0) as [n|] eqn:Hn.
    + case_bool_decide as Hsome.
      * apply Hins; [done|by left].
      * apply Hins; [by apply eq_None_not_Some|right; by exists n].
    + apply Hins; [done|by left].
Qed.

Lemma changes_all_children_witness :
  size (children (ChangesJsonResource
                    [mkChange (Some 7%Z) 1000 VNone; mkChange None 1001 VNone;
                     mkChange (Some 7%Z) 1002 VNone])) = 3%nat.
Proof.
  refine (proj2 (changes_all_children
                   [mkChange (Some 7%Z) 1000 VNone; mkChange None 1001 VNone;
                    mkChange (Some 7%Z) 1002 VNone] _ _)).
  - apply (bool_decide_unpack _). vm_compute. exact I.
  - intros c c' Hc Hc'.
    apply list_elem_of_In in Hc, Hc'. simpl in Hc, Hc'.
    destruct Hc as [<-|[<-|[<-|[]]]]; destruct Hc' as [<-|[<-|[<-|[]]]]; discriminate.
Defined.

(** A name under which a changes node has a child resolves to that
    child. *)
Lemma ChangesJsonResource_child changes req name c :
  ChangesJsonResource_init changes !! name = Some c →
  getChildWithDefault (ChangesJsonResource changes) (PStr name) req
  = Ok (ChangesJsonResource changes, ChangeJsonResource c).
Proof.
  intros Hl.
  assert (name ≠ "" ∧ name ≠ "help") as [Hne Hnh].
  { apply ChangesJsonResource_init_keys in Hl as [_ [-> |(n & _ & ->)]]; apply str_not_name. }
  cbn [getChildWithDefault]. unfold getChildWithDefault_base.
  rewrite bool_decide_eq_false_2 by (by intros [= ->]). cbn [andb].
  rewrite (bool_decide_eq_false_2 (PStr name = PStr "help")) by (by intros [= ->]).
  cbn [andb children]. by rewrite lookup_fmap, Hl.
Qed.

(** X16.  Rendering a changes node never raises: it gives one entry
    per child, under the child's name, holding that change's own
    rendering, and the empty mapping when there is no change. *)
Theorem changes_rendering changes req :
  ∃ d, asDict (ChangesJsonResource changes) req = Ok (VDict d) ∧
       (∀ name, d !! KStr name = c_asDict <$> ChangesJsonResource_init changes !! name) ∧
       (∀ k, (∀ name, k ≠ KStr name) → d !! k = None) ∧
       (changes = [] → d = ∅).
Proof.
  set (init := ChangesJsonResource_init changes).
  set (body := λ (name : string) (_ : resource) (acc : result document),
         data ← acc;
         '(_, child) ← getChildWithDefault (ChangesJsonResource changes) (PStr name) req;
         if isinstance_JsonResource child then
           v ← default (Raise RuntimeError) (asDict_own child req);
           Ok (<[KStr name := v]> data)
         else Ok data).
  assert (∀ m : gmap string resource,
            (∀ name, is_Some (m !! name) → is_Some (init !! name)) →
            ∃ d, map_fold body (Ok ∅) m = Ok d ∧
                 (∀ name, d !! KStr name = (m !! name) ≫= λ _, c_asDict <$> init !! name) ∧
                 (∀ k, (∀ name, k ≠ KStr name) → d !! k = None)) as Hfold.
  { intros m. apply (map_fold_weak_ind (λ r m,
       (∀ name, is_Some (m !! name) → is_Some (init !! name)) →
       ∃ d, r = Ok d ∧
            (∀ name, d !! KStr name = (m !! name) ≫= λ _, c_asDict <$> init !! name) ∧
            (∀ k, (∀ name, k ≠ KStr name) → d !! k = None))).
    - intros _. exists ∅. split; [done|]. split; [|done].
      intros name. by rewrite !lookup_empty.
    - intros i x m' r Hi IH Hdom.
      destruct IH as (d & -> & Hd & Hk).
      { intros name Hn. apply Hdom. rewrite lookup_insert_ne; [done|].
        intros <-. rewrite Hi in Hn. by destruct Hn. }
      destruct (Hdom i) as [c Hc]; [by rewrite lookup_insert_eq|].
      unfold body at 1. cbn [mbind result_bind].
      rewrite (ChangesJsonResource_child changes req i c Hc).
      cbn [mbind result_bind isinstance_JsonResource asDict_own default].
      eexists. split; [done|]. split.
      + intros name. destruct (decide (i = name)) as [<-|Hne].
        * rewrite !lookup_insert_eq. cbn. by rewrite Hc.
        * rewrite !lookup_insert_ne by congruence. apply Hd.
      + intros k Hk'. rewrite lookup_insert_ne by (intros <-; by apply (Hk' i)).
        by apply Hk. }
  cbn [asDict]. unfold ChangesJsonResource_asDict, JsonResource_asDict.
  case_bool_decide as Hempty.
  - exists ∅. split; [done|]. split; [|done].
    intros name. rewrite lookup_empty. cbn [children] in Hempty.
    apply fmap_empty_inv in Hempty. fold init in Hempty. by rewrite Hempty, lookup_empty.
  - fold body. destruct (Hfold (children (ChangesJsonResource changes))) as (d & Hd & Hnames & Hother).
    { intros name. cbn [children]. rewrite lookup_fmap. fold init.
      rewrite fmap_is_Some. done. }
    rewrite Hd. exists d. split; [done|]. split; [|split; [done|]].
    + intros name. rewrite Hnames. cbn [children]. rewrite lookup_fmap. fold init.
      by destruct (init !! name).
    + intros ->. by destruct Hempty.
Qed.

Lemma foldl_append {A B} (f : A → list B) (l : list A) : ∀ acc,
  foldl (λ acc x, acc ++ f x) acc l = acc ++ flat_map f l.
Proof.
  induction l as [|x l IH]; intros acc; cbn [foldl flat_map].
  - by rewrite app_nil_r.
  - by rewrite IH, app_assoc.
Qed.

Lemma foldl_append_if {A B} (p : A → bool) (f : A → B) (l : list A) : ∀ acc,
  foldl (λ acc x, if p x then acc ++ [f x] else acc) acc l
  = acc ++ map f (List.filter p l).
Proof.
  induction l as [|x l IH]; intros acc; cbn [foldl List.filter].
  - by rewrite app_nil_r.
  - rewrite IH. destruct (p x); [|done]. by rewrite <- app_assoc.
Qed.

Lemma my_builders_flat_map status slavename :
  my_builders status slavename
  = flat_map (λ bname,
                map (λ _, getBuilder status bname)
                  (List.filter (λ bs, bool_decide (slave_getName bs = slavename))
                     (getSlaves (getBuilder status bname))))
      (getBuilderNames status).
Proof.
  unfold my_builders.
  assert (∀ names acc,
            foldl (λ my_builders bname,
                     foldl (λ my_builders bs,
                              if bool_decide (slave_getName bs = slavename)
                              then my_builders ++ [getBuilder status bname]
                              else my_builders)
                           my_builders (getSlaves (getBuilder status bname)))
                  acc names
            = acc ++ flat_map (λ bname,
                                 map (λ _, getBuilder status bname)
                                   (List.filter
                                      (λ bs, bool_decide (slave_getName bs = slavename))
                                      (getSlaves (getBuilder status bname))))
                       names) as Hfold.
  { induction names as [|bname names IH]; intros acc; cbn [foldl flat_map].
    - by rewrite app_nil_r.
    - by rewrite IH, (foldl_append_if _ (λ _, getBuilder status bname)), app_assoc. }
  by rewrite Hfold.
Qed.

(** X17.  The builds node of a slave lists the renderings of the
    builds now running on that slave, taken from the builders that
    have the slave among their slaves, and nothing else. *)
Theorem slave_current_builds status slave req v :
  v ∈ SlaveBuildsJsonResource_asDict status slave req ↔
  ∃ bname bs cb,
    bname ∈ getBuilderNames status ∧
    bs ∈ getSlaves (getBuilder status bname) ∧
    slave_getName bs = slave_getName slave ∧
    cb ∈ getCurrentBuilds (getBuilder status bname) ∧
    getSlavename cb = slave_getName slave ∧
    v = slave_build_asDict cb req.
Proof.
  unfold SlaveBuildsJsonResource_asDict. cbv zeta.
  set (slavename := slave_getName slave).
  assert (∀ l acc,
            foldl (λ current_builds b,
                     foldl (λ current_builds cb,
                              if bool_decide (getSlavename cb = slavename)
                              then current_builds ++ [slave_build_asDict cb req]
                              else current_builds)
                           current_builds (getCurrentBuilds b)) acc l
            = acc ++ flat_map (λ b, map (λ cb, slave_build_asDict cb req)
                                      (List.filter
                                         (λ cb, bool_decide (getSlavename cb = slavename))
                                         (getCurrentBuilds b))) l) as Hfold.
  { induction l as [|b l IH]; intros acc; cbn [foldl flat_map].
    - by rewrite app_nil_r.
    - by rewrite IH, (foldl_append_if _ (λ cb, slave_build_asDict cb req)), app_assoc. }
  rewrite Hfold, app_nil_l, my_builders_flat_map.
  rewrite list_elem_of_In, in_flat_map. split.
  - intros (b & Hb & Hv).
    apply in_flat_map in Hb as (bname & Hbname & Hb).
    apply in_map_iff in Hb as (bs & <- & Hbs).
    apply filter_In in Hbs as [Hbs Hname%bool_decide_eq_true].
    apply in_map_iff in Hv as (cb & <- & Hcb).
    apply filter_In in Hcb as [Hcb Hslave%bool_decide_eq_true].
    exists bname, bs, cb. by rewrite !list_elem_of_In.
  - intros (bname & bs & cb & Hbname & Hbs & Hname & Hcb & Hslave & ->).
    apply list_elem_of_In in Hbname. apply list_elem_of_In in Hbs.
    apply list_elem_of_In in Hcb.
    exists (getBuilder status bname). split.
    + apply in_flat_map. exists bname. split; [done|].
      apply in_map_iff. exists bs. split; [done|].
      apply filter_In. split; [done|]. by apply bool_decide_eq_true.
    + apply in_map_iff. exists cb. split; [done|].
      apply filter_In. split; [done|]. by apply bool_decide_eq_true.
Qed.

(** ** A segment that is not found *)

(** Resolution of non-empty segments does not read the request. *)
Lemma resolve_req segs : ∀ self req1 req2,
  Forall (λ pe, pe ≠ "") segs →
  resolve self req1 segs = resolve self req2 segs.
Proof.
  induction segs as [|pe rest IH]; intros self req1 req2 Hne; [done|].
  apply Forall_cons in Hne as [Hpe Hne]. cbn [resolve].
  rewrite (getChildWithDefault_req pe self _
             (set_paths req2 (prepath req2 ++ [pe]) rest)) by done.
  destruct (getChildWithDefault self (PStr pe) _) as [[self_a next]|]; [|done].
  cbn [mbind result_bind].
  by rewrite (IH next _ (set_paths req2 (prepath req2 ++ [pe]) rest)).
Qed.

(** Below a resource without [asDict] there are only such resources,
    and resolution stores nothing in them. *)
Lemma resolve_no_asDict r req segs :
  hasattr_asDict r = false →
  ∃ r', resolve r req segs = Ok (r, r') ∧ hasattr_asDict r' = false.
Proof.
  intros Hr. destruct segs as [|pe rest]; [by exists r|].
  destruct r; try discriminate Hr.
  - exists NoResource. cbn [resolve getChildWithDefault].
    unfold JsonResource_getChild. cbn [mbind result_bind].
    by rewrite resolve_NoResource.
  - exists NoResource. by rewrite resolve_NoResource.
Qed.

Lemma resolve_cons self req pe rest :
  resolve self req (pe :: rest)
  = '(self, next) ← getChildWithDefault self (PStr pe)
                      (set_paths req (prepath req ++ [pe]) rest);
    '(next, reached) ← resolve next (set_paths req (prepath req ++ [pe]) rest) rest;
    Ok (store_child self pe next, reached).
Proof. done. Qed.

(** Once a walk has come to a resource without [asDict], the segments
    that follow change neither that nor the resources above. *)
Lemma resolve_unresolved pre : ∀ s self req1 req2 self1 r post,
  Forall (λ pe, pe ≠ "") (s :: pre) →
  resolve self req1 (s :: pre) = Ok (self1, r) →
  hasattr_asDict r = false →
  ∃ r', resolve self req2 (s :: pre ++ post) = Ok (self1, r')
        ∧ hasattr_asDict r' = false.
Proof.
  induction pre as [|s2 pre IH]; intros s self req1 req2 self1 r post Hne H Hr;
    apply Forall_cons in Hne as [Hs Hne].
  - cbn [resolve] in H. cbn [resolve app].
    rewrite (getChildWithDefault_req s self _
               (set_paths req1 (prepath req1 ++ [s]) [])) by done.
    destruct (getChildWithDefault self (PStr s) _) as [[self_a next]|]; [|done].
    cbn [mbind result_bind] in *. injection H as <- <-.
    destruct (resolve_no_asDict next (set_paths req2 (prepath req2 ++ [s]) post) post Hr)
      as (r' & -> & Hr').
    cbn [mbind result_bind]. by exists r'.
  - rewrite resolve_cons in H. cbn [app]. rewrite resolve_cons.
    rewrite (getChildWithDefault_req s self _
               (set_paths req1 (prepath req1 ++ [s]) (s2 :: pre))) by done.
    destruct (getChildWithDefault self (PStr s) _) as [[self_a next]|]; [|done].
    cbn [mbind result_bind] in *.
    destruct (resolve next _ (s2 :: pre)) as [[next' reached]|] eqn:Hnext; [|done].
    cbn [mbind result_bind] in H. injection H as <- <-.
    destruct (IH s2 next _ (set_paths req2 (prepath req2 ++ [s]) (s2 :: pre ++ post))
                next' reached post Hne Hnext Hr) as (r' & Hres & Hr').
    cbn [app] in Hres. rewrite Hres. cbn [mbind result_bind]. by exists r'.
Qed.

Lemma select_item_unresolved self req1 req2 item s pre post self1 r data :
  segments item = s :: pre ++ post →
  resolve self req1 (s :: pre) = Ok (self1, r) →
  hasattr_asDict r = false →
  select_item req2 (self, data) item
  = Ok (self1, <[KStr s := VDict (nest (pre ++ post)
                                    {[ KStr "error" := VStr "Not available" ]})]> data).
Proof.
  intros Hsegs Hres Hr.
  assert (Forall (λ pe, pe ≠ "") (s :: pre)) as Hne.
  { pose proof (segments_nonempty item) as Hall. rewrite Hsegs in Hall.
    change (s :: pre ++ post) with ((s :: pre) ++ post) in Hall.
    by apply Forall_app in Hall as [? _]. }
  destruct (resolve_unresolved pre s self req1 req2 self1 r post Hne Hres Hr)
    as (r' & Hres' & Hr').
  rewrite select_item_spec, Hsegs, Hres'. cbn [mbind result_bind].
  unfold child_dict_of. rewrite Hr'. cbn [mbind result_bind].
  unfold dict_update. cbn [mbind result_bind]. by rewrite (right_id_L ∅ (∪)).
Qed.

(** *** Entries with different first segments, at a build as well *)

Lemma select_item_erase req self data item self' data' :
  select_item req (self, data) item = Ok (self', data') → erase self' = erase self.
Proof.
  intros Hitem. rewrite select_item_spec in Hitem.
  destruct (resolve self req (segments item)) as [[self1 reached]|e] eqn:Hres; [|done].
  apply resolve_erase in Hres. cbn [mbind result_bind] in Hitem.
  destruct (child_dict_of reached _) as [child_dict|e]; [|done].
  cbn [mbind result_bind] in Hitem.
  destruct (segments item).
  - destruct (dict_update data child_dict); [|done]. by injection Hitem as <- <-.
  - destruct (dict_update ∅ child_dict); [|done]. by injection Hitem as <- <-.
Qed.

Lemma erase_no_memo self self2 :
  has_step_memo self = false → erase self2 = erase self → self2 = self.
Proof. intros Hm He. by destruct self, self2. Qed.

Lemma first_segment_nonempty item s : first_segment item = Some s → s ≠ "".
Proof.
  unfold first_segment. intros Hs. pose proof (segments_nonempty item) as Hall.
  destruct (segments item) as [|s' rest]; [done|]. injection Hs as ->.
  by apply Forall_cons in Hall as [? _].
Qed.

(** At a build, a first segment other than ['steps'] resolves without
    reading or changing the children that the steps have stored. *)
Lemma resolve_Build_other bs m1 m2 req s rest self1 reached :
  s ≠ "" → s ≠ "steps" →
  resolve (BuildJsonResource bs m1) req (s :: rest) = Ok (self1, reached) →
  self1 = BuildJsonResource bs m1
  ∧ resolve (BuildJsonResource bs m2) req (s :: rest)
    = Ok (BuildJsonResource bs m2, reached).
Proof.
  intros Hs Hsteps H. rewrite resolve_cons in *.
  set (req' := set_paths req (prepath req ++ [s]) rest) in *.
  assert (∃ child, ∀ m, getChildWithDefault (BuildJsonResource bs m) (PStr s) req'
                        = Ok (BuildJsonResource bs m, child)
                        ∧ ∀ next, store_child (BuildJsonResource bs m) s next
                                  = BuildJsonResource bs m) as (child & Hchild).
  { assert (∀ m next, store_child (BuildJsonResource bs m) s next = BuildJsonResource bs m)
      as Hstore.
    { intros m next. destruct next; try done. simpl. by rewrite bool_decide_eq_false_2. }
    destruct (decide (s = "help")) as [->|Hhelp].
    { exists (HelpResource (help (BuildJsonResource bs ∅)) "Build help"
                {[ "source_stamp"; "steps" ]}).
      intros m. split; [|apply Hstore].
      cbn [getChildWithDefault]. rewrite getChildWithDefault_base_nonempty by done.
      cbn [children]. rewrite !dom_insert_L, !dom_singleton_L. reflexivity. }
    destruct (decide (s = "source_stamp")) as [->|Hss].
    { exists (SourceStampJsonResource (getSourceStamps_0 bs)).
      intros m. split; [|apply Hstore].
      cbn [getChildWithDefault]. rewrite getChildWithDefault_base_nonempty by done.
      rewrite bool_decide_eq_false_2 by (by intros [=]). cbn [andb children].
      rewrite lookup_insert_eq. reflexivity. }
    exists NoResource. intros m. split; [|apply Hstore].
    cbn [getChildWithDefault]. rewrite getChildWithDefault_base_nonempty by done.
    rewrite bool_decide_eq_false_2 by (by intros [= ->]). cbn [andb children].
    rewrite lookup_insert_ne, lookup_singleton_ne by done. reflexivity. }
  destruct (Hchild m1) as [H1 Hs1]. destruct (Hchild m2) as [H2 Hs2].
  rewrite H1 in H. rewrite H2. cbn [mbind result_bind] in *.
  destruct (resolve child req' rest) as [[next' reached']|]; [|done].
  cbn [mbind result_bind] in *. injection H as <- <-.
  split; [apply (Hs1 next')|by rewrite Hs2].
Qed.

(** An entry that does not go through the steps of a build does the
    same to every document, whatever those steps have stored, and
    leaves the node as it is. *)
Lemma select_item_blind req self item s data self1 d1 :
  first_segment item = Some s →
  has_step_memo self = false ∨ ((∃ bs m, self = BuildJsonResource bs m) ∧ s ≠ "steps") →
  select_item req (self, data) item = Ok (self1, d1) →
  ∃ v, ∀ self2 data2, erase self2 = erase self →
         select_item req (self2, data2) item = Ok (self2, <[KStr s := v]> data2).
Proof.
  intros Hs Hblind Hitem. destruct Hblind as [Hm|[(bs & m & ->) Hsteps]].
  - assert (self1 = self) as -> by by eapply select_item_no_memo.
    destruct (select_item_insert _ _ _ _ _ _ _ Hs Hitem) as [v Hv].
    exists v. intros self2 data2 He. by rewrite (erase_no_memo self self2).
  - pose proof (first_segment_nonempty _ _ Hs) as Hne.
    unfold first_segment in Hs.
    destruct (segments item) as [|s' rest] eqn:Hsegs; [done|]. injection Hs as ->.
    rewrite select_item_spec, Hsegs in Hitem.
    destruct (resolve (BuildJsonResource bs m) req (s :: rest))
      as [[self_r reached]|] eqn:Hres; [|done].
    cbn [mbind result_bind] in Hitem.
    destruct (child_dict_of reached _) as [child_dict|] eqn:Hcd; [|done].
    cbn [mbind result_bind] in Hitem.
    destruct (dict_update ∅ child_dict) as [leaf|] eqn:Hup; [|done].
    exists (VDict (nest rest leaf)). intros self2 data2 He.
    destruct self2; try discriminate He. simpl in He. injection He as ->.
    destruct (resolve_Build_other _ _ steps _ _ _ _ _ Hne Hsteps Hres) as [_ Hres2].
    rewrite select_item_spec, Hsegs, Hres2. cbn [mbind result_bind].
    rewrite Hcd. cbn [mbind result_bind]. by rewrite Hup.
Qed.

(** A node that is not a steps container is a build or has nothing
    that resolution changes. *)
Lemma not_steps_container self :
  (∀ bs steps, self ≠ BuildStepsJsonResource bs steps) →
  has_step_memo self = false ∨ ∃ bs m, self = BuildJsonResource bs m.
Proof.
  intros Hself. destruct self; try (by left).
  - right. by eexists _, _.
  - exfalso. by eapply Hself.
Qed.

Lemma erase_not_steps_container self self2 :
  erase self2 = erase self →
  (∀ bs steps, self ≠ BuildStepsJsonResource bs steps) →
  ∀ bs steps, self2 ≠ BuildStepsJsonResource bs steps.
Proof.
  intros He Hself bs steps ->. destruct self; try discriminate He.
  by eapply Hself.
Qed.

Lemma Ok_insert_inj (s1 s2 : resource) (k : key) (v1 v2 : value) (d1 d2 : document) :
  (Ok (s1, <[k := v1]> d1) : result (resource * document)) = Ok (s2, <[k := v2]> d2) →
  s1 = s2 ∧ v1 = v2.
Proof.
  intros H. split.
  - by apply (f_equal (λ r, match r with Ok (s, _) => s | Raise _ => s1 end)) in H.
  - apply (f_equal (λ r, match r with Ok (_, d) => d !! k | Raise _ => None end)) in H.
    rewrite !lookup_insert_eq in H. by injection H.
Qed.

(** Of an entry that goes through the steps and one that does not,
    and of two that do not, either can come first. *)
Lemma select_items_swap req self data x y sx sy self1 d1 self2 d2 :
  (∀ bs steps, self ≠ BuildStepsJsonResource bs steps) →
  first_segment x = Some sx → first_segment y = Some sy → sx ≠ sy →
  select_item req (self, data) y = Ok (self1, d1) →
  select_item req (self1, d1) x = Ok (self2, d2) →
  ∃ self1' d1', select_item req (self, data) x = Ok (self1', d1')
                ∧ select_item req (self1', d1') y = Ok (self2, d2).
Proof.
  intros Hself Hx Hy Hne Hiy Hix.
  pose proof (select_item_erase _ _ _ _ _ _ Hiy) as Hey.
  pose proof (select_item_erase _ _ _ _ _ _ Hix) as Hex.
  assert (KStr sx ≠ KStr sy) as Hk by (by intros [= ->]).
  destruct (select_item_insert _ _ _ _ _ _ _ Hy Hiy) as [vy Hvy].
  destruct (select_item_insert _ _ _ _ _ _ _ Hx Hix) as [vx Hvx].
  rewrite Hvy in Hiy. injection Hiy as <-. rewrite Hvx in Hix. injection Hix as <-.
  destruct (not_steps_container self Hself) as [Hm|(bs & m & ->)].
  - (* nothing changes the node *)
    assert (self1 = self) as -> by (eapply select_item_no_memo; [done|apply (Hvy ∅)]).
    assert (self2 = self) as -> by (eapply select_item_no_memo; [done|apply (Hvx ∅)]).
    eexists _, _. split; [apply Hvx|]. rewrite Hvy. by rewrite insert_insert_ne.
  - destruct (decide (sy = "steps")) as [->|Hsy].
    + (* [y] goes through the steps, [x] does not *)
      assert (∃ bs1 m1, self1 = BuildJsonResource bs1 m1) as (bs1 & m1 & ->).
      { destruct self1; try discriminate Hey. by eexists _, _. }
      destruct (select_item_blind req _ x sx ∅ _ _ Hx
                  (or_intror (conj (ex_intro _ bs1 (ex_intro _ m1 eq_refl)) Hne))
                  (Hvx ∅)) as [vx' Hblind].
      assert (self2 = BuildJsonResource bs1 m1 ∧ vx = vx') as [-> ->].
      { pose proof (Hblind (BuildJsonResource bs1 m1) ∅ eq_refl) as H.
        rewrite Hvx in H. by apply Ok_insert_inj in H. }
      eexists _, _. split; [apply Hblind; by rewrite Hey|].
      rewrite Hvy. by rewrite insert_insert_ne.
    + (* [y] does not go through the steps *)
      destruct (select_item_blind req _ y sy ∅ _ _ Hy
                  (or_intror (conj (ex_intro _ bs (ex_intro _ m eq_refl)) Hsy))
                  (Hvy ∅)) as [vy' Hblind].
      assert (self1 = BuildJsonResource bs m ∧ vy = vy') as [-> ->].
      { pose proof (Hblind (BuildJsonResource bs m) ∅ eq_refl) as H.
        rewrite Hvy in H. by apply Ok_insert_inj in H. }
      eexists _, _. split; [apply Hvx|].
      rewrite Hblind by (by rewrite Hex). by rewrite insert_insert_ne.
Qed.

Lemma select_items_perm_build req items items' :
  Permutation items items' →
  ∀ self data r,
    (∀ bs steps, self ≠ BuildStepsJsonResource bs steps) →
    NoDup (map first_segment items) →
    Forall (λ item, is_Some (first_segment item)) items →
    for_each (select_item req) (self, data) items = Ok r →
    for_each (select_item req) (self, data) items' = Ok r.
Proof.
  intros Hperm.
  induction Hperm as [|x l l' Hperm IH|x y l|l l' l'' Hp1 IH1 Hp2 IH2];
    intros self data r Hself Hnd Hall H.
  - done.
  - cbn [for_each] in *.
    destruct (select_item req (self, data) x) as [[self1 d1]|] eqn:Hitem; [|done].
    cbn [mbind result_bind] in *.
    apply NoDup_cons in Hnd as [_ Hnd]. apply Forall_cons in Hall as [_ Hall].
    apply IH; try done.
    eapply erase_not_steps_container; [|exact Hself]. by eapply select_item_erase.
  - cbn [for_each] in *. cbn [map] in Hnd.
    apply Forall_cons in Hall as [[sy Hy] Hall]. apply Forall_cons in Hall as [[sx Hx] Hall].
    apply NoDup_cons in Hnd as [Hne _].
    assert (sx ≠ sy) as Hsne.
    { intros ->. apply Hne. rewrite Hy, Hx. left. }
    destruct (select_item req (self, data) y) as [[self1 d1]|] eqn:Hiy; [|done].
    cbn [mbind result_bind] in H.
    destruct (select_item req (self1, d1) x) as [[self2 d2]|] eqn:Hix; [|done].
    cbn [mbind result_bind] in H.
    destruct (select_items_swap _ _ _ _ _ _ _ _ _ _ _ Hself Hx Hy Hsne Hiy Hix)
      as (self1' & d1' & -> & Hy').
    cbn [mbind result_bind]. by rewrite Hy'.
  - apply IH2; try done.
    + apply NoDup_ListNoDup. eapply Permutation_NoDup; [by apply Permutation_map|].
      by apply NoDup_ListNoDup.
    + by rewrite <- Hp1.
    + by apply IH1.
Qed.

Lemma select_items_erase req items : ∀ self data self' data',
  for_each (select_item req) (self, data) items = Ok (self', data') →
  erase self' = erase self.
Proof.
  induction items as [|item items IH]; intros self data self' data' H.
  - by injection H as <- <-.
  - cbn [for_each] in H.
    destruct (select_item req (self, data) item) as [[self1 d1]|] eqn:Hitem; [|done].
    cbn [mbind result_bind] in H. apply IH in H. rewrite H.
    by eapply select_item_erase.
Qed.

Lemma select_items_Build_other req items : ∀ bs m data self' data',
  Forall (λ item, ∃ s, first_segment item = Some s ∧ s ≠ "steps") items →
  for_each (select_item req) (BuildJsonResource bs m, data) items = Ok (self', data') →
  self' = BuildJsonResource bs m.
Proof.
  induction items as [|item items IH]; intros bs m data self' data' Hall H.
  - by injection H as <- <-.
  - cbn [for_each] in H. apply Forall_cons in Hall as [(s & Hs & Hsteps) Hall].
    destruct (select_item req (BuildJsonResource bs m, data) item)
      as [[self1 d1]|] eqn:Hitem; [|done].
    cbn [mbind result_bind] in H.
    destruct (select_item_blind req _ item s _ _ _ Hs
                (or_intror (conj (ex_intro _ bs (ex_intro _ m eq_refl)) Hsteps)) Hitem)
      as [v Hblind].
    rewrite (Hblind (BuildJsonResource bs m) data eq_refl) in Hitem.
    injection Hitem as <- <-. by eapply IH.
Qed.

(** The document of a selection with one entry whose walk comes to a
    resource without [asDict]. *)
Lemma select_data_unresolved self req item others select s pre post self1 r d :
  (∀ bs steps, self ≠ BuildStepsJsonResource bs steps) →
  segments item = s :: pre ++ post →
  resolve self req (s :: pre) = Ok (self1, r) →
  hasattr_asDict r = false →
  Permutation select (item :: others) →
  Forall (λ other, segments other ≠ []) others →
  NoDup (map first_segment select) →
  select_data self req others = Ok d →
  select_data self req select
  = Ok (<[KStr s := VDict (nest (pre ++ post)
                             {[ KStr "error" := VStr "Not available" ]})]> d)
  ∧ d !! KStr s = None.
Proof.
  intros Hself Hsegs Hres Hr Hperm Hne Hnd Hd.
  set (branch := VDict (nest (pre ++ post) {[ KStr "error" := VStr "Not available" ]})).
  rewrite select_data_for_each in Hd. rewrite select_data_for_each.
  set (req0 := set_args req (delete "select" (args req))) in *.
  set (lo := sort_select (map (Py.strip "/") others)) in *.
  set (x := Py.strip "/" item).
  destruct (for_each (select_item req0) (self, ∅) lo) as [[self_o d_o]|] eqn:Ho; [|done].
  injection Hd as ->.
  assert (first_segment x = Some s) as Hx.
  { unfold x. rewrite first_segment_strip. unfold first_segment. by rewrite Hsegs. }
  assert (segments x = s :: pre ++ post) as Hxsegs.
  { unfold x. by rewrite segments_strip. }
  assert (Permutation lo (map (Py.strip "/") others)) as Hlo by apply sort_select_perm.
  assert (Permutation (sort_select (map (Py.strip "/") select)) (x :: lo)) as Hsel.
  { rewrite sort_select_perm, Hlo, Hperm. done. }
  assert (NoDup (map first_segment (x :: lo))) as Hndx.
  { apply NoDup_ListNoDup.
    eapply Permutation_NoDup; [apply Permutation_map, Hsel|].
    eapply Permutation_NoDup;
      [apply Permutation_map, Permutation_sym, sort_select_perm|].
    rewrite map_map. erewrite map_ext; [by apply NoDup_ListNoDup|].
    intros i. apply first_segment_strip. }
  assert (Forall (λ i, is_Some (first_segment i)) lo) as Hall.
  { rewrite Hlo. apply Forall_forall. intros i Hi.
    apply list_elem_of_In, in_map_iff in Hi as (other & <- & Hin).
    rewrite first_segment_strip. apply nonempty_first_segment in Hne.
    rewrite Forall_forall in Hne. by apply Hne, list_elem_of_In. }
  cbn [map] in Hndx. apply NoDup_cons in Hndx as [Hnotin Hndlo].
  assert (d !! KStr s = None) as Hnone.
  { destruct (d !! KStr s) as [v|] eqn:Hl; [|done]. exfalso.
    destruct (select_items_keys req0 lo _ _ _ _ Hall Ho (KStr s)) as [He|(i & si & Hi & Hsi & Heq)].
    - by rewrite Hl.
    - rewrite lookup_empty in He. by destruct He.
    - injection Heq as <-. apply Hnotin. rewrite Hx, <- Hsi.
      apply list_elem_of_In, in_map, list_elem_of_In, Hi. }
  split; [|done].
  assert (∃ self_x, select_item req0 (self_o, d) x = Ok (self_x, <[KStr s := branch]> d))
    as [self_x Hitem].
  { pose proof (select_items_erase _ _ _ _ _ _ Ho) as He.
    pose proof (λ data, select_item_unresolved self req req0 x s pre post self1 r data
                          Hxsegs Hres Hr) as Hun. fold branch in Hun.
    destruct (not_steps_container self Hself) as [Hm|(bs & m & ->)].
    { rewrite (erase_no_memo self self_o Hm He). eexists. apply Hun. }
    destruct (decide (s = "steps")) as [->|Hsteps].
    - assert (self_o = BuildJsonResource bs m) as ->; [|eexists; apply Hun].
      eapply select_items_Build_other; [|exact Ho].
      apply Forall_forall. intros i Hi. rewrite Forall_forall in Hall.
      destruct (Hall i Hi) as [si Hsi]. exists si. split; [done|]. intros ->.
      apply Hnotin. rewrite Hx, <- Hsi. apply list_elem_of_In, in_map, list_elem_of_In, Hi.
    - destruct (select_item_blind req0 _ x s ∅ _ _ Hx
                  (or_intror (conj (ex_intro _ bs (ex_intro _ m eq_refl)) Hsteps))
                  (Hun ∅)) as [v Hblind].
      assert (v = branch) as ->.
      { pose proof (Hblind (BuildJsonResource bs m) ∅ eq_refl) as H.
        rewrite Hun in H. apply Ok_insert_inj in H as [_ H]. done. }
      exists self_o. by apply Hblind. }
  assert (for_each (select_item req0) (self, ∅) (lo ++ [x])
          = Ok (self_x, <[KStr s := branch]> d)) as Hall_x.
  { rewrite for_each_app, Ho. cbn [mbind result_bind for_each]. by rewrite Hitem. }
  rewrite (select_items_perm_build req0 (lo ++ [x])
             (sort_select (map (Py.strip "/") select))
             ltac:(rewrite Hsel; symmetry; apply Permutation_cons_append)
             self ∅ (self_x, <[KStr s := branch]> d) Hself); [done| | |exact Hall_x].
  - apply NoDup_ListNoDup.
    eapply Permutation_NoDup; [apply Permutation_map, Permutation_cons_append|].
    cbn [map]. apply NoDup_ListNoDup, NoDup_cons. done.
  - apply Forall_app. split; [done|]. apply Forall_cons. split; [by eexists|constructor].
Qed.

(** C9, as stated, fails in two ways.  A segment that cannot be
    resolved does not always end as a resource that is not found: an
    integer beyond the steps of a build raises [IndexError] in
    [BuildStepsJsonResource.getChild], nothing catches it, and no
    document is produced, although the other entry alone renders.
    And the other branches are not always rendered: entries under one
    first segment replace one another, so with [steps/0] and
    [steps/nothing] either the step or the marker is lost, depending
    on which entry comes later. *)
Lemma unresolved_branch_counterexample :
  let build := BuildJsonResource (Sample.build 5) ∅ in
  let marker : gmap key value := {[ KStr "error" := VStr "Not available" ]} in
  (select_data build Sample.request0 ["steps/99"; "source_stamp"] = Raise IndexError ∧
   ∃ d, select_data build Sample.request0 ["source_stamp"] = Ok d) ∧
  select_data build Sample.request0 ["steps/0"; "steps/nothing"]
  = Ok {[ KStr "steps" := VDict {[ KStr "nothing" := VDict marker ]} ]} ∧
  select_data build Sample.request0 ["steps/nothing"; "steps/0"]
  = Ok {[ KStr "steps" :=
            VDict {[ KStr "0" := VDict {[ KStr "name" := VStr "compile" ]} ]} ]}.
Proof.
  cbv zeta. split; [split|split].
  - vm_compute. reflexivity.
  - eexists. vm_compute. reflexivity.
  - vm_compute. reflexivity.
  - vm_compute. reflexivity.
Qed.

(** C9, amended.  Let the walk of an entry come, at its first segment
    or a later one, to a resource without [asDict]: [NoResource],
    which is what a segment that is not found resolves to, or a help
    page.  Then the remaining segments change nothing, the entry
    raises nothing, and whatever the document held under the entry's
    first segment is replaced by the mappings of its segments with
    the marker ['error': 'Not available'] innermost; the loop goes on
    with the remaining entries.  At every node but a steps container,
    when the first segments of the entries are pairwise different, the
    document of the selection is still produced whenever the other
    entries compose without it, and it is their document with that
    branch added. *)
Theorem unresolved_branch self req item s pre post self1 r :
  segments item = s :: pre ++ post →
  resolve self req (s :: pre) = Ok (self1, r) →
  hasattr_asDict r = false →
  let marker : gmap key value := {[ KStr "error" := VStr "Not available" ]} in
  let branch := VDict (nest (pre ++ post) marker) in
  (∀ data, select_item req (self, data) item = Ok (self1, <[KStr s := branch]> data)) ∧
  (∀ data others,
     for_each (select_item req) (self, data) (item :: others)
     = for_each (select_item req) (self1, <[KStr s := branch]> data) others) ∧
  ((∀ bs steps, self ≠ BuildStepsJsonResource bs steps) →
   ∀ select others d,
     Permutation select (item :: others) →
     Forall (λ other, segments other ≠ []) others →
     NoDup (map first_segment select) →
     select_data self req others = Ok d →
     select_data self req select = Ok (<[KStr s := branch]> d) ∧ d !! KStr s = None).
Proof.
  intros Hsegs Hres Hr marker branch.
  pose proof (λ data, select_item_unresolved self req req item s pre post self1 r data
                        Hsegs Hres Hr) as Hitem.
  split; [exact Hitem|]. split.
  - intros data others. cbn [for_each]. by rewrite Hitem.
  - intros Hself select others d Hperm Hne Hnd Hd.
    by eapply select_data_unresolved.
Qed.

Lemma unresolved_branch_witness :
  select_data (BuildJsonResource (Sample.build 5) ∅) Sample.request0
    ["source_stamp"; "steps/nothing/more"]
  = Ok (<[KStr "steps" :=
            VDict (nest ["nothing"; "more"] {[ KStr "error" := VStr "Not available" ]})]>
          {[ KStr "source_stamp" := VDict {[ KStr "branch" := VStr "master" ]} ]}).
Proof.
  refine (proj1 (proj2 (proj2 (unresolved_branch (BuildJsonResource (Sample.build 5) ∅)
                                 Sample.request0 "steps/nothing/more" "steps" ["nothing"]
                                 ["more"] (BuildJsonResource (Sample.build 5) ∅) NoResource
                                 _ _ _)) _
                   ["source_stamp"; "steps/nothing/more"] ["source_stamp"]
                   {[ KStr "source_stamp" := VDict {[ KStr "branch" := VStr "master" ]} ]}
                   _ _ _ _)).
  - reflexivity.
  - reflexivity.
  - reflexivity.
  - intros bs steps. discriminate.
  - apply perm_swap.
  - repeat constructor. discriminate.
  - apply (bool_decide_unpack _). vm_compute. exact I.
  - vm_compute. reflexivity.
Defined.
